(** * The Python bot backend of agario-python-ai ([src/app.py])

    A shallow embedding of the bot entity model ([PyBotCell], [PyBot]) and of
    the bot registry ([bots_data] with the three Flask handlers), followed by
    the properties of the specification that were checked against it.

    Modelling conventions.
    - Python floats are idealised as real numbers ([R]): no rounding, no
      overflow (the [OverflowError] of an overflowing [**] is not modelled),
      no NaN.  Where Python leaves the floats (a negative float
      raised to the power 0.5 is a [complex]) the model follows it with
      [pynum]; where Python raises ([ZeroDivisionError], [TypeError],
      [IndexError], [KeyError]) the model returns [Raise].
    - [random], [uuid.uuid4] and [time.time] are read from oracle streams
      stored in the [World], each with a read position.
    - The registry [bots_data] is an insertion-ordered dictionary: an
      association list whose keys are kept distinct by [dict_set].  Every bot
      object is referenced by one registry entry only, so the registry stores
      bot values and an in-place mutation of a registered bot is written back
      under its key.
    - Logging and JSON encoding are left out: [to_dict] results are records
      and [jsonify] is the identity. *)

From Stdlib Require Import Reals Lra Lia List String Ascii ZArith NArith Bool.
From Stdlib Require HexString.
Import ListNotations.
Open Scope R_scope.

(** ** Python values and exceptions *)

Inductive exn : Type :=
| ZeroDivisionError
| TypeError
| IndexError
| KeyError.

Inductive result (A : Type) : Type :=
| Ok (a : A)
| Raise (e : exn).
Arguments Ok {A} a.
Arguments Raise {A} e.

(** A number computed by [**]: a float, or a complex with its two parts. *)
Inductive pynum : Type :=
| PyFloat (r : R)
| PyComplex (re im : R).

(** ** State and exception monad

    A computation reads and writes a state [S] and either returns or raises;
    the state reached when an exception is raised is kept, as for in-place
    mutation in Python. *)

Definition M (S A : Type) : Type := S -> result A * S.

Definition ret {S A} (a : A) : M S A := fun s => (Ok a, s).

Definition bind {S A B} (c : M S A) (k : A -> M S B) : M S B :=
  fun s => match c s with
           | (Ok a, s') => k a s'
           | (Raise e, s') => (Raise e, s')
           end.

Definition raise {S A} (e : exn) : M S A := fun s => (Raise e, s).
Definition get {S} : M S S := fun s => (Ok s, s).
Definition put {S} (s : S) : M S unit := fun _ => (Ok tt, s).
Definition modify {S} (f : S -> S) : M S unit := fun s => (Ok tt, f s).

Definition lift_result {S A} (r : result A) : M S A := fun s => (r, s).

Notation "x <- c1 ;; c2" := (bind c1 (fun x => c2))
  (at level 61, c1 at next level, right associativity).
Notation "c1 ;>> c2" := (bind c1 (fun _ => c2))
  (at level 61, right associativity).

(** ** Float operations *)

(** [a / b] on floats raises on a zero divisor. *)
Definition float_div (a b : R) : result R :=
  if Req_dec_T b 0 then Raise ZeroDivisionError else Ok (a / b).

(** Truth value of a float: false exactly for zero. *)
Definition float_truth (a : R) : bool :=
  if Req_dec_T a 0 then false else true.

Definition float_lt (a b : R) : bool :=
  if Rlt_dec a b then true else false.

(** [max(a, b)] and [min(a, b)] keep the first argument unless the second
    one is strictly greater (resp. smaller). *)
Definition float_max (a b : R) : R := if float_lt a b then b else a.
Definition float_min (a b : R) : R := if float_lt b a then b else a.

(** [x ** 2] on a float. *)
Definition float_pow_2 (x : R) : R := x * x.

(** [x ** 0.5] on a float: the square root of a non-negative float, the
    complex root [sqrt(-x) * 1j] of a negative one. *)
Definition float_pow_half (x : R) : pynum :=
  if Rle_dec 0 x then PyFloat (sqrt x) else PyComplex 0 (sqrt (- x)).

(** [a < b] where [a] was computed by [**] and [b] is a float: ordering a
    complex number is a [TypeError]. *)
Definition num_lt_float (a : pynum) (b : R) : result bool :=
  match a with
  | PyFloat x => Ok (float_lt x b)
  | PyComplex _ _ => Raise TypeError
  end.

(** [sum(...)] of floats: left to right from 0. *)
Definition py_sum (l : list R) : R := fold_left Rplus l 0.

(** [math.atan2(y, x)]. *)
Definition atan2 (y x : R) : R :=
  if Rlt_dec 0 x then atan (y / x)
  else if Rlt_dec x 0 then
         (if Rle_dec 0 y then atan (y / x) + PI else atan (y / x) - PI)
       else if Rlt_dec 0 y then PI / 2
            else if Rlt_dec y 0 then - (PI / 2)
                 else 0.

(** ** Module constants *)

Definition WORLD_WIDTH : R := 3000.
Definition WORLD_HEIGHT : R := 3000.
Definition BOT_MAX_CELLS : Z := 4%Z.
Definition BOT_INITIAL_MASS : R := PI * 15 * 15.
Definition BOT_BASE_SPEED : R := 2.5.

Definition mass_to_radius (mass : R) : pynum := float_pow_half (mass / PI).
Definition radius_to_mass (radius : R) : R := PI * radius * radius.

(** ** Data model *)

Module Cell.
Record t : Type := mk {
  id : string;
  x : R;
  y : R;
  mass : R;
  radius : pynum
}.
End Cell.
Definition PyBotCell : Type := Cell.t.

Module Bot.
Record t : Type := mk {
  id : string;
  name : string;
  color : string;
  cells : list PyBotCell;
  target_x : R;
  target_y : R;
  last_update_time : R;
  total_mass : R
}.
End Bot.
Definition PyBot : Type := Bot.t.

(** The process state: the registry and the oracles. *)
Record World : Type := mkWorld {
  bots_data : list (string * PyBot);
  uuid_source : nat -> string;    (* str(uuid.uuid4()), in call order *)
  uuid_pos : nat;
  random_source : nat -> R;       (* random.random(), in call order *)
  random_pos : nat;
  randint_source : nat -> N;      (* raw integer draws of random.randint *)
  randint_pos : nat;
  clock : nat -> R;               (* time.time(), in call order *)
  clock_pos : nat
}.

(** ** Field updates *)

Definition set_x (c : PyBotCell) (v : R) : PyBotCell :=
  Cell.mk (Cell.id c) v (Cell.y c) (Cell.mass c) (Cell.radius c).
Definition set_y (c : PyBotCell) (v : R) : PyBotCell :=
  Cell.mk (Cell.id c) (Cell.x c) v (Cell.mass c) (Cell.radius c).
Definition set_mass (c : PyBotCell) (v : R) : PyBotCell :=
  Cell.mk (Cell.id c) (Cell.x c) (Cell.y c) v (Cell.radius c).
Definition set_radius (c : PyBotCell) (v : pynum) : PyBotCell :=
  Cell.mk (Cell.id c) (Cell.x c) (Cell.y c) (Cell.mass c) v.

Definition set_cells (b : PyBot) (cs : list PyBotCell) : PyBot :=
  Bot.mk (Bot.id b) (Bot.name b) (Bot.color b) cs (Bot.target_x b)
         (Bot.target_y b) (Bot.last_update_time b) (Bot.total_mass b).
Definition set_target_x (b : PyBot) (v : R) : PyBot :=
  Bot.mk (Bot.id b) (Bot.name b) (Bot.color b) (Bot.cells b) v
         (Bot.target_y b) (Bot.last_update_time b) (Bot.total_mass b).
Definition set_target_y (b : PyBot) (v : R) : PyBot :=
  Bot.mk (Bot.id b) (Bot.name b) (Bot.color b) (Bot.cells b) (Bot.target_x b)
         v (Bot.last_update_time b) (Bot.total_mass b).
Definition set_last_update_time (b : PyBot) (v : R) : PyBot :=
  Bot.mk (Bot.id b) (Bot.name b) (Bot.color b) (Bot.cells b) (Bot.target_x b)
         (Bot.target_y b) v (Bot.total_mass b).
Definition set_total_mass (b : PyBot) (v : R) : PyBot :=
  Bot.mk (Bot.id b) (Bot.name b) (Bot.color b) (Bot.cells b) (Bot.target_x b)
         (Bot.target_y b) (Bot.last_update_time b) v.

Definition set_bots_data (w : World) (d : list (string * PyBot)) : World :=
  mkWorld d (uuid_source w) (uuid_pos w) (random_source w) (random_pos w)
          (randint_source w) (randint_pos w) (clock w) (clock_pos w).

(** ** The insertion-ordered dictionary *)

Section Dict.
Context {V : Type}.

Fixpoint dict_mem (k : string) (d : list (string * V)) : bool :=
  match d with
  | [] => false
  | (k', _) :: rest => if String.eqb k k' then true else dict_mem k rest
  end.

(** [d[k] = v]: an existing key keeps its place, a new key goes last. *)
Fixpoint dict_set (k : string) (v : V) (d : list (string * V))
  : list (string * V) :=
  match d with
  | [] => [(k, v)]
  | (k', v') :: rest =>
      if String.eqb k k' then (k', v) :: rest
      else (k', v') :: dict_set k v rest
  end.

(** [del d[k]]: [KeyError] when the key is absent. *)
Fixpoint dict_del (k : string) (d : list (string * V))
  : result (list (string * V)) :=
  match d with
  | [] => Raise KeyError
  | (k', v') :: rest =>
      if String.eqb k k' then Ok rest
      else match dict_del k rest with
           | Ok rest' => Ok ((k', v') :: rest')
           | Raise e => Raise e
           end
  end.

Definition dict_keys (d : list (string * V)) : list string := map fst d.
Definition dict_values (d : list (string * V)) : list V := map snd d.
End Dict.

(** ** The oracles *)

Definition uuid4_str : M World string := fun w =>
  (Ok (uuid_source w (uuid_pos w)),
   mkWorld (bots_data w) (uuid_source w) (S (uuid_pos w)) (random_source w)
           (random_pos w) (randint_source w) (randint_pos w) (clock w)
           (clock_pos w)).

Definition random_random : M World R := fun w =>
  (Ok (random_source w (random_pos w)),
   mkWorld (bots_data w) (uuid_source w) (uuid_pos w) (random_source w)
           (S (random_pos w)) (randint_source w) (randint_pos w) (clock w)
           (clock_pos w)).

(** [random.uniform(a, b)] is [a + (b - a) * random()]. *)
Definition random_uniform (a b : R) : M World R :=
  u <- random_random ;; ret (a + (b - a) * u).

(** [random.randint(a, b)]: the raw draw brought into [a .. b]. *)
Definition random_randint (a b : Z) : M World Z := fun w =>
  (Ok (a + Z.of_N (randint_source w (randint_pos w)) mod (b - a + 1))%Z,
   mkWorld (bots_data w) (uuid_source w) (uuid_pos w) (random_source w)
           (random_pos w) (randint_source w) (S (randint_pos w)) (clock w)
           (clock_pos w)).

Definition time_time : M World R := fun w =>
  (Ok (clock w (clock_pos w)),
   mkWorld (bots_data w) (uuid_source w) (uuid_pos w) (random_source w)
           (random_pos w) (randint_source w) (randint_pos w) (clock w)
           (S (clock_pos w))).

(** ** Strings *)

(** [s[:n]] *)
Definition str_prefix (n : nat) (s : string) : string := substring 0 n s.

(** [s[-n:]] *)
Definition str_suffix (n : nat) (s : string) : string :=
  substring (String.length s - n) n s.

Fixpoint zero_pad (n : nat) (s : string) : string :=
  match n with
  | O => s
  | S n' => String "0" (zero_pad n' s)
  end.

(** [f"{n:06x}"] for a non-negative [n]. *)
Definition format_06x (n : Z) : string :=
  let digits := match n with
                | Zpos p => HexString.Raw.of_pos p EmptyString
                | _ => String "0" EmptyString
                end in
  zero_pad (6 - String.length digits) digits.

(** [s or default()] on an optional string argument: [None] and the empty
    string are false. *)
Definition str_or {S} (s : option string) (default : M S string)
  : M S string :=
  match s with
  | Some (String a r) => ret (String a r)
  | _ => default
  end.

Definition generate_bot_id : M World string :=
  u <- uuid4_str ;; ret ("pybot_" ++ str_prefix 8 u)%string.

(** ** class PyBotCell *)

(** [PyBotCell.__init__(x, y, mass, cell_id=None)] *)
Definition PyBotCell_init (x y mass : R) (cell_id : option string)
  : M World PyBotCell :=
  i <- str_or cell_id (u <- uuid4_str ;; ret (str_prefix 6 u)) ;;
  ret (Cell.mk i x y mass (mass_to_radius mass)).

(** [PyBotCell.update_mass(new_mass)], on the cell as state. *)
Definition update_mass (new_mass : R) : M PyBotCell unit :=
  modify (fun c => set_mass c new_mass) ;>>
  modify (fun c => set_radius c (mass_to_radius (Cell.mass c))).

Record CellDict : Type := mkCellDict {
  cd_id : string;
  cd_x : R;
  cd_y : R;
  cd_mass : R;
  cd_radius : pynum
}.

Definition cell_to_dict (c : PyBotCell) : CellDict :=
  mkCellDict (Cell.id c) (Cell.x c) (Cell.y c) (Cell.mass c) (Cell.radius c).

(** ** class PyBot

    A method runs on the pair of its object and the process state. *)

Definition BotM (A : Type) : Type := M (PyBot * World) A.

Definition self : BotM PyBot := fun s => (Ok (fst s), s).

Definition update_self (f : PyBot -> PyBot) : BotM unit :=
  modify (fun s => (f (fst s), snd s)).

Definition in_world {A} (c : M World A) : BotM A := fun s =>
  let (r, w') := c (snd s) in (r, (fst s, w')).

(** Runs a computation on the cell list of the object, in place. *)
Definition on_cells {A} (c : M (list PyBotCell) A) : BotM A := fun s =>
  let (r, cs') := c (Bot.cells (fst s)) in (r, (set_cells (fst s) cs', snd s)).

(** [for a in l: body], mutating each element in place; an exception stops
    the loop and leaves the elements as they are at that point. *)
Fixpoint for_each {A} (body : M A unit) (l : list A) : result unit * list A :=
  match l with
  | [] => (Ok tt, [])
  | a :: rest =>
      match body a with
      | (Ok _, a') => let (r, rest') := for_each body rest in (r, a' :: rest')
      | (Raise e, a') => (Raise e, a' :: rest)
      end
  end.

Definition is_empty {A} (l : list A) : bool :=
  match l with [] => true | _ => false end.

(** [l[0]] *)
Definition list_first {A} (l : list A) : result A :=
  match l with
  | [] => Raise IndexError
  | a :: _ => Ok a
  end.

Definition recalculate_total_mass : BotM unit :=
  update_self (fun b => set_total_mass b (py_sum (map Cell.mass (Bot.cells b)))) ;>>
  b <- self ;;
  w <- in_world get ;;
  if is_empty (Bot.cells b) && dict_mem (Bot.id b) (bots_data w) then
    d <- lift_result (dict_del (Bot.id b) (bots_data w)) ;;
    in_world (modify (fun w => set_bots_data w d))
  else ret tt.

Definition add_initial_cell : BotM unit :=
  initial_x <- in_world (random_uniform 100 (WORLD_WIDTH - 100)) ;;
  initial_y <- in_world (random_uniform 100 (WORLD_HEIGHT - 100)) ;;
  c <- in_world (PyBotCell_init initial_x initial_y BOT_INITIAL_MASS None) ;;
  update_self (fun b => set_cells b (Bot.cells b ++ [c])) ;>>
  recalculate_total_mass.

(** Runs the rest of a constructor on the object built so far. *)
Definition construct (b : PyBot) (m : BotM unit) : M World PyBot := fun w =>
  match m (b, w) with
  | (Ok _, (b', w')) => (Ok b', w')
  | (Raise e, (_, w')) => (Raise e, w')
  end.

(** [PyBot.__init__(bot_id=None, name=None, color=None)] *)
Definition PyBot_init (bot_id name color : option string) : M World PyBot :=
  i <- str_or bot_id generate_bot_id ;;
  n <- str_or name (ret ("PyBot " ++ str_suffix 3 i)%string) ;;
  c <- str_or color (k <- random_randint 0 0xFFFFFF ;;
                     ret ("#" ++ format_06x k)%string) ;;
  tx <- random_uniform 0 WORLD_WIDTH ;;
  ty <- random_uniform 0 WORLD_HEIGHT ;;
  t <- time_time ;;
  construct (Bot.mk i n c [] tx ty t 0) add_initial_cell.

Definition get_center_of_mass : BotM (R * R) :=
  b <- self ;;
  if is_empty (Bot.cells b) then ret (Bot.target_x b, Bot.target_y b)
  else
    com_x <- (if float_truth (Bot.total_mass b)
              then lift_result
                     (float_div
                        (py_sum (map (fun c => Cell.x c * Cell.mass c) (Bot.cells b)))
                        (Bot.total_mass b))
              else c <- lift_result (list_first (Bot.cells b)) ;; ret (Cell.x c)) ;;
    com_y <- (if float_truth (Bot.total_mass b)
              then lift_result
                     (float_div
                        (py_sum (map (fun c => Cell.y c * Cell.mass c) (Bot.cells b)))
                        (Bot.total_mass b))
              else c <- lift_result (list_first (Bot.cells b)) ;; ret (Cell.y c)) ;;
    ret (com_x, com_y).

(** [max(radius, min(limit - radius, v))]: with a complex radius the
    comparison inside [min] is a [TypeError]. *)
Definition clamp (limit : R) (radius : pynum) (v : R) : result R :=
  match radius with
  | PyFloat r => Ok (float_max r (float_min (limit - r) v))
  | PyComplex _ _ => Raise TypeError
  end.

(** Lines 90-91 of [update_position]: the scalar speed of a bot. *)
Definition bot_speed (total_mass : R) : result R :=
  match float_div total_mass (BOT_INITIAL_MASS * 20) with
  | Raise e => Raise e
  | Ok q =>
      match float_div BOT_BASE_SPEED (1 + q) with
      | Raise e => Raise e
      | Ok speed => Ok (float_max 0.5 speed)
      end
  end.

(** The body of the loop over the cells in [update_position]. *)
Definition move_cell (move_x move_y : R) : M PyBotCell unit :=
  modify (fun c => set_x c (Cell.x c + move_x)) ;>>
  modify (fun c => set_y c (Cell.y c + move_y)) ;>>
  c <- get ;;
  v <- lift_result (clamp WORLD_WIDTH (Cell.radius c) (Cell.x c)) ;;
  put (set_x c v) ;>>
  c <- get ;;
  v <- lift_result (clamp WORLD_HEIGHT (Cell.radius c) (Cell.y c)) ;;
  put (set_y c v).

Definition update_position (delta_time : R) : BotM unit :=
  b <- self ;;
  if is_empty (Bot.cells b) then ret tt
  else
    com <- get_center_of_mass ;;
    let com_x := fst com in
    let com_y := snd com in
    let dist_to_target :=
      float_pow_half (float_pow_2 (Bot.target_x b - com_x)
                      + float_pow_2 (Bot.target_y b - com_y)) in
    near <- lift_result (num_lt_float dist_to_target 50) ;;
    reroll <- (if near then ret true
               else u <- in_world random_random ;; ret (float_lt u 0.01)) ;;
    (if reroll : bool then
       tx <- in_world (random_uniform 0 WORLD_WIDTH) ;;
       update_self (fun b => set_target_x b tx) ;>>
       ty <- in_world (random_uniform 0 WORLD_HEIGHT) ;;
       update_self (fun b => set_target_y b ty)
     else ret tt) ;>>
    b <- self ;;
    let angle := atan2 (Bot.target_y b - com_y) (Bot.target_x b - com_x) in
    speed <- lift_result (bot_speed (Bot.total_mass b)) ;;
    let move_x := cos angle * speed * delta_time * 60 in
    let move_y := sin angle * speed * delta_time * 60 in
    on_cells (for_each (move_cell move_x move_y)) ;>>
    t <- in_world time_time ;;
    update_self (fun b => set_last_update_time b t).

Record BotDict : Type := mkBotDict {
  bd_id : string;
  bd_name : string;
  bd_color : string;
  bd_cells : list CellDict;
  bd_target : R * R;
  bd_totalMass : R;
  bd_isPythonBot : bool
}.

Definition bot_to_dict (b : PyBot) : BotDict :=
  mkBotDict (Bot.id b) (Bot.name b) (Bot.color b)
            (map cell_to_dict (Bot.cells b))
            (Bot.target_x b, Bot.target_y b) (Bot.total_mass b) true.

Definition create_bot_instance : M World PyBot := PyBot_init None None None.

(** ** The Flask handlers *)

Inductive json : Type :=
| BotList (bots : list BotDict)
| Message (message : string)
| Health (status : string) (bot_count : nat).

(** A response: the JSON body and the HTTP status. *)
Definition response : Type := (json * Z)%type.

Definition jsonify (j : json) : json := j.

(** Calls a method on a registered bot object: the mutations of the object
    are visible through its registry entry, also when the method raises. *)
Definition call_method {A} (key : string) (obj : PyBot) (m : BotM A)
  : M World (A * PyBot) := fun w =>
  let '(r, (obj', w')) := m (obj, w) in
  let d := bots_data w' in
  let w'' := if dict_mem key d then set_bots_data w' (dict_set key obj' d)
             else w' in
  (match r with Ok a => Ok (a, obj') | Raise e => Raise e end, w'').

Definition health_check : M World response :=
  w <- get ;;
  ret (jsonify (Health "healthy" (List.length (bots_data w))), 200%Z).

(** The loop of [get_bots_data] over [list(bots_data.items())]. *)
Fixpoint get_bots_loop (current_time : R) (items : list (string * PyBot))
         (active_bots : list BotDict) : M World (list BotDict) :=
  match items with
  | [] => ret active_bots
  | (bot_id, bot_instance) :: rest =>
      let delta_time := current_time - Bot.last_update_time bot_instance in
      r <- call_method bot_id bot_instance (update_position delta_time) ;;
      let bot_instance := snd r in
      if negb (is_empty (Bot.cells bot_instance)) then
        get_bots_loop current_time rest
                      (active_bots ++ [bot_to_dict bot_instance])
      else
        w <- get ;;
        (if dict_mem bot_id (bots_data w) then
           d <- lift_result (dict_del bot_id (bots_data w)) ;;
           modify (fun w => set_bots_data w d)
         else ret tt) ;>>
        get_bots_loop current_time rest active_bots
  end.

(** [GET /bots] *)
Definition get_bots_data : M World response :=
  current_time <- time_time ;;
  w <- get ;;
  active_bots <- get_bots_loop current_time (bots_data w) [] ;;
  ret (jsonify (BotList active_bots), 200%Z).

(** [for _ in range(n): body] *)
Fixpoint for_range {S} (n : nat) (body : M S unit) : M S unit :=
  match n with
  | O => ret tt
  | S n' => body ;>> for_range n' body
  end.

(** [POST /bots/reset]; [count_arg] is the [count] query parameter after its
    conversion by [type=int], [None] when it is missing or not an integer. *)
Definition reset_all_bots (count_arg : option Z) : M World response :=
  modify (fun w => set_bots_data w []) ;>>
  let count := match count_arg with Some n => n | None => 10%Z end in
  for_range (Z.to_nat count)
            (bot <- create_bot_instance ;;
             modify (fun w => set_bots_data w (dict_set (Bot.id bot) bot (bots_data w)))) ;>>
  w <- get ;;
  ret (jsonify (BotList (map bot_to_dict
                             (filter (fun b => negb (is_empty (Bot.cells b)))
                                     (dict_values (bots_data w))))),
       200%Z).

(** [POST /bots/eaten/<bot_id>] *)
Definition bot_was_eaten (bot_id : string) : M World response :=
  w <- get ;;
  if dict_mem bot_id (bots_data w) then
    d <- lift_result (dict_del bot_id (bots_data w)) ;;
    modify (fun w => set_bots_data w d) ;>>
    new_bot <- create_bot_instance ;;
    modify (fun w => set_bots_data w (dict_set (Bot.id new_bot) new_bot (bots_data w))) ;>>
    ret (jsonify (Message ("Bot " ++ bot_id ++ " acknowledged as eaten, new bot "
                           ++ Bot.id new_bot ++ " spawned.")%string),
         200%Z)
  else
    ret (jsonify (Message ("Bot " ++ bot_id ++ " not found.")%string), 404%Z).

(** The start-up block: ten bots are registered before serving. *)
Definition main : M World unit :=
  for_range 10
            (bot <- create_bot_instance ;;
             modify (fun w => set_bots_data w (dict_set (Bot.id bot) bot (bots_data w)))).

(** * Specification vocabulary and fixtures *)

(** The cell that [move_cell] leaves behind when its radius is the float
    [r]. *)
Definition moved (move_x move_y r : R) (c : PyBotCell) : PyBotCell :=
  Cell.mk (Cell.id c)
          (float_max r (float_min (WORLD_WIDTH - r) (Cell.x c + move_x)))
          (float_max r (float_min (WORLD_HEIGHT - r) (Cell.y c + move_y)))
          (Cell.mass c) (Cell.radius c).

(** The radius of the cell is a float. *)
Definition float_radius (c : PyBotCell) : Prop :=
  exists r, Cell.radius c = PyFloat r.

(** How [update_position] relates a cell before and after. *)
Definition cell_moved (move_x move_y : R) (c c' : PyBotCell) : Prop :=
  exists r, Cell.radius c = PyFloat r /\ c' = moved move_x move_y r c.

(** The denominator under the base speed. *)
Definition slowdown (total_mass : R) : R :=
  1 + total_mass / (BOT_INITIAL_MASS * 20).

(** The value [get_center_of_mass] returns, as a function of the bot. *)
Definition center_of_mass (b : PyBot) : R * R :=
  match Bot.cells b with
  | [] => (Bot.target_x b, Bot.target_y b)
  | c :: _ =>
      if Req_dec_T (Bot.total_mass b) 0 then (Cell.x c, Cell.y c)
      else (py_sum (map (fun c => Cell.x c * Cell.mass c) (Bot.cells b))
            / Bot.total_mass b,
            py_sum (map (fun c => Cell.y c * Cell.mass c) (Bot.cells b))
            / Bot.total_mass b)
  end.

(** A bot on which [update_position] runs to its end: real radii, and a
    total mass away from the pole of the speed law. *)
Definition updatable (b : PyBot) : Prop :=
  Forall float_radius (Bot.cells b)
  /\ Bot.total_mass b <> - (BOT_INITIAL_MASS * 20).

(** A world with constant oracles and an empty registry. *)
Definition world0 : World :=
  mkWorld [] (fun _ => "3f2a9c1e-7b4d-4e8a-9c3f-1a2b3c4d5e6f"%string) 0
          (fun _ => 1 / 2) 0 (fun _ => 0%N) 0 (fun n => INR n) 0.

(** A bot of one cell of the initial mass. *)
Definition small_cell : PyBotCell :=
  Cell.mk "3f2a9c" 200 300 (radius_to_mass 15) (PyFloat 15).

Definition small_bot : PyBot :=
  Bot.mk "pybot_3f2a9c1e" "PyBot c1e" "#000000" [small_cell] 1000 1000 0
         (radius_to_mass 15).

(** A bot whose only cell is wider than the arena. *)
Definition big_cell : PyBotCell :=
  Cell.mk "3f2a9c" 1500 1500 (radius_to_mass 2000) (PyFloat 2000).

Definition big_bot : PyBot :=
  Bot.mk "pybot_3f2a9c1e" "PyBot c1e" "#000000" [big_cell] 1000 1000 0
         (radius_to_mass 2000).

(** The property as the specification words it, for one cell. *)
Definition in_bounds (c : PyBotCell) : Prop :=
  exists r, Cell.radius c = PyFloat r
            /\ r <= Cell.x c <= WORLD_WIDTH - r
            /\ r <= Cell.y c <= WORLD_HEIGHT - r.

(** What the clamp achieves: the lower bounds always; along an axis where
    the cell fits in the arena the upper bound as well, and along an axis
    where the cell is wider than the arena the coordinate is the radius. *)
Definition clamped (c : PyBotCell) : Prop :=
  exists r, Cell.radius c = PyFloat r
            /\ r <= Cell.x c /\ r <= Cell.y c
            /\ (2 * r <= WORLD_WIDTH -> Cell.x c <= WORLD_WIDTH - r)
            /\ (2 * r <= WORLD_HEIGHT -> Cell.y c <= WORLD_HEIGHT - r)
            /\ (WORLD_WIDTH < 2 * r -> Cell.x c = r)
            /\ (WORLD_HEIGHT < 2 * r -> Cell.y c = r).


(** A bot as the constructor leaves it: one cell of the initial mass, with
    radius 15, and the total mass of that cell. *)
Definition fresh_bot (b : PyBot) : Prop :=
  exists c, Bot.cells b = [c]
            /\ Cell.mass c = BOT_INITIAL_MASS
            /\ Cell.radius c = PyFloat 15
            /\ Bot.total_mass b = BOT_INITIAL_MASS.

(** The identifier of the [i]-th bot constructed from the state [w] on: each
    construction reads two UUIDs, the first one for the bot. *)
Definition nth_bot_id (w : World) (i : nat) : string :=
  ("pybot_" ++ str_prefix 8 (uuid_source w (uuid_pos w + 2 * i)))%string.

(** The cached total is the sum of the cell masses. *)
Definition mass_consistent (b : PyBot) : Prop :=
  Bot.total_mass b = py_sum (map Cell.mass (Bot.cells b)).

(** The mass-weighted average of the cell positions, as the specification
    words the centre of mass: the positions weighted by the cell masses,
    over the sum of the cell masses. *)
Definition weighted_average (cells : list PyBotCell) : R * R :=
  (py_sum (map (fun c => Cell.x c * Cell.mass c) cells)
   / py_sum (map Cell.mass cells),
   py_sum (map (fun c => Cell.y c * Cell.mass c) cells)
   / py_sum (map Cell.mass cells)).

(** [l[i].m(...)]: a method of the [i]-th object of a list, in place. *)
Fixpoint at_index {A B} (i : nat) (m : M A B) (l : list A)
  : result B * list A :=
  match l, i with
  | [], _ => (Raise IndexError, [])
  | a :: rest, O => let (r, a') := m a in (r, a' :: rest)
  | a :: rest, S i' => let (r, rest') := at_index i' m rest in (r, a :: rest')
  end.

(** Keys of the registry after one more bot was registered under [k]. *)
Definition add_key (ks : list string) (k : string) : list string :=
  if existsb (String.eqb k) ks then ks else ks ++ [k].

(** Two different UUID prefixes in turn. *)
Definition world_distinct : World :=
  mkWorld [] (fun n => match n with
                       | O => "3f2a9c1e-7b4d-4e8a-9c3f-1a2b3c4d5e6f"%string
                       | _ => "a81b22c4-0d5e-4f6a-8b7c-9d0e1f2a3b4c"%string
                       end) 0
          (fun _ => 1 / 2) 0 (fun _ => 0%N) 0 (fun n => INR n) 0.

(** Two registered bots; the next UUID drawn repeats the prefix of the
    second one. *)
Definition other_bot : PyBot :=
  Bot.mk "pybot_aaaaaaaa" "PyBot aaa" "#000000" [small_cell] 1000 1000 0
         (radius_to_mass 15).

Definition world_two : World :=
  set_bots_data world0 [("pybot_aaaaaaaa"%string, other_bot);
                        ("pybot_3f2a9c1e"%string, small_bot)].

(** Every item advanced in turn by [update_position], with the time elapsed
    since its own last update; the oracles are threaded from one bot to the
    next. *)
Fixpoint advance_all (current_time : R) (items : list (string * PyBot))
         (w : World) : list (string * PyBot) * World :=
  match items with
  | [] => ([], w)
  | (k, b) :: rest =>
      let r := update_position (current_time - Bot.last_update_time b) (b, w) in
      let rest' := advance_all current_time rest (snd (snd r)) in
      ((k, fst (snd r)) :: fst rest', snd rest')
  end.

(** The test [if bot_instance.cells] on a registry item. *)
Definition has_cells (kb : string * PyBot) : bool :=
  negb (is_empty (Bot.cells (snd kb))).

(** A registry with a bot of one cell and a bot without cells. *)
Definition empty_bot : PyBot :=
  Bot.mk "pybot_0badcafe" "PyBot afe" "#000000" [] 1000 1000 0 0.

Definition world_poll : World :=
  set_bots_data world0 [("pybot_3f2a9c1e"%string, small_bot);
                        ("pybot_0badcafe"%string, empty_bot)].

(** * Vocabulary for the motion step *)

(** Distance from the centre of mass to the wander target, as
    [update_position] computes it. *)
Definition target_distance (b : PyBot) : R :=
  sqrt ((Bot.target_x b - fst (center_of_mass b))
        * (Bot.target_x b - fst (center_of_mass b))
        + (Bot.target_y b - snd (center_of_mass b))
          * (Bot.target_y b - snd (center_of_mass b))).

(** Whether the step picks a new target: the bot is within 50 of its target,
    or the next draw of [random.random()] is below 0.01. *)
Definition rerolls (b : PyBot) (w : World) : bool :=
  float_lt (target_distance b) 50
  || float_lt (random_source w (random_pos w)) 0.01.

(** Position in the random stream of the first draw used for a new target:
    the test draw is skipped when the bot is near its target. *)
Definition reroll_index (b : PyBot) (w : World) : nat :=
  if float_lt (target_distance b) 50 then random_pos w else S (random_pos w).

(** The target the bot steers to during the step. *)
Definition next_target (b : PyBot) (w : World) : R * R :=
  if rerolls b w then
    (0 + (WORLD_WIDTH - 0) * random_source w (reroll_index b w),
     0 + (WORLD_HEIGHT - 0) * random_source w (S (reroll_index b w)))
  else (Bot.target_x b, Bot.target_y b).

(** Read position of the random stream after the step. *)
Definition next_random_pos (b : PyBot) (w : World) : nat :=
  if rerolls b w then S (S (reroll_index b w)) else reroll_index b w.

(** The heading of the step. *)
Definition heading (b : PyBot) (w : World) : R :=
  atan2 (snd (next_target b w) - snd (center_of_mass b))
        (fst (next_target b w) - fst (center_of_mass b)).

(** The speed of the step, away from the pole of the speed law. *)
Definition speed_of (b : PyBot) : R :=
  Rmax 0.5 (BOT_BASE_SPEED / slowdown (Bot.total_mass b)).

(** The displacement applied to every cell before clamping. *)
Definition displacement (b : PyBot) (w : World) (delta_time : R) : R * R :=
  (cos (heading b w) * speed_of b * delta_time * 60,
   sin (heading b w) * speed_of b * delta_time * 60).



(** A point of the arena. *)
Definition in_arena (p : R * R) : Prop :=
  0 <= fst p <= WORLD_WIDTH /\ 0 <= snd p <= WORLD_HEIGHT.

(** A bot whose target and centre of mass both lie in the arena: the squares
    taken for the distance to the target are then far below the range in
    which a float power overflows. *)
Definition on_the_map (b : PyBot) : Prop :=
  in_arena (Bot.target_x b, Bot.target_y b) /\ in_arena (center_of_mass b).

(** A bot after [cells[0].update_mass(m)] and [recalculate_total_mass()]
    with a negative [m]: the radius is the complex root, the total is [m]. *)
Definition shrunk_bot (m : R) : PyBot :=
  Bot.mk "pybot_3f2a9c1e" "PyBot c1e" "#000000"
         [Cell.mk "3f2a9c" 200 300 m (mass_to_radius m)] 1000 1000 0 m.

(** * Vocabulary for the server as a whole *)

(** [random.random()] returns floats of the interval [0, 1). *)
Definition unit_random (w : World) : Prop :=
  forall n, 0 <= random_source w n < 1.

(** The identifier and the name a constructor call ends with, and the colour
    it generates. *)
Definition chosen_id (bot_id : option string) (w : World) : string :=
  match bot_id with
  | Some (String a s) => String a s
  | _ => ("pybot_" ++ str_prefix 8 (uuid_source w (uuid_pos w)))%string
  end.

Definition chosen_name (bot_id name : option string) (w : World) : string :=
  match name with
  | Some (String a s) => String a s
  | _ => ("PyBot " ++ str_suffix 3 (chosen_id bot_id w))%string
  end.

Definition generated_color (w : World) : string :=
  ("#" ++ format_06x (0 + Z.of_N (randint_source w (randint_pos w))
                          mod (0xFFFFFF - 0 + 1)))%string.

Definition chosen_color (color : option string) (w : World) : string :=
  match color with
  | Some (String a s) => String a s
  | _ => generated_color w
  end.

(** The registry without the entry of key [k]. *)
Definition without_key (k : string) (d : list (string * PyBot))
  : list (string * PyBot) :=
  filter (fun kb => negb (String.eqb k (fst kb))) d.

(** The requests the application routes, one per [@app.route]. *)
Inductive request : Type :=
| HealthCheck
| GetBots
| ResetBots (count_arg : option Z)
| BotEaten (bot_id : string).

(** The routing table. *)
Definition handle (r : request) : M World response :=
  match r with
  | HealthCheck => health_check
  | GetBots => get_bots_data
  | ResetBots count_arg => reset_all_bots count_arg
  | BotEaten bot_id => bot_was_eaten bot_id
  end.

(** Requests served one after the other. *)
Fixpoint serve (rs : list request) : M World (list response) :=
  match rs with
  | [] => ret []
  | r :: rest => a <- handle r ;; l <- serve rest ;; ret (a :: l)
  end.

(** A registry entry as the server keeps it: filed under the bot's own
    identifier, one cell of the initial mass and radius 15 within the bounds,
    and the initial mass as total mass. *)
Definition sound_entry (kb : string * PyBot) : Prop :=
  Bot.id (snd kb) = fst kb
  /\ exists c, Bot.cells (snd kb) = [c]
               /\ Cell.mass c = BOT_INITIAL_MASS
               /\ Cell.radius c = PyFloat 15
               /\ Bot.total_mass (snd kb) = BOT_INITIAL_MASS
               /\ in_bounds c.

Definition server_inv (w : World) : Prop :=
  unit_random w
  /\ NoDup (dict_keys (bots_data w))
  /\ Forall sound_entry (bots_data w).

(** The HTTP status of a response. *)
Definition status (r : response) : Z := snd r.

(** A fresh process whose UUIDs all differ in their first two characters:
    the [n]-th one starts with the two decimal digits of [n]. *)
Definition numbered_uuid (n : nat) : string :=
  String (ascii_of_nat (48 + n / 10))
         (String (ascii_of_nat (48 + n mod 10))
                 "2a9c1e-7b4d-4e8a-9c3f-1a2b3c4d5e6f").

Definition world_numbered : World :=
  mkWorld [] numbered_uuid 0 (fun _ => 1 / 2) 0 (fun _ => 0%N) 0
          (fun n => INR n) 0.

(** A registry holding one bot as the constructor makes them. *)
Definition world_one : World :=
  set_bots_data world0 [("pybot_3f2a9c1e"%string, small_bot)].

(** A poll followed by a health check. *)
Definition poll_then_health : M World (response * response) :=
  a <- get_bots_data ;; h <- health_check ;; ret (a, h).

(** Lower-case hexadecimal digits, as the format [x] writes them. *)
Definition is_hex_digit (c : ascii) : bool :=
  existsb (Ascii.eqb c)
          ["0"; "1"; "2"; "3"; "4"; "5"; "6"; "7"; "8"; "9";
           "a"; "b"; "c"; "d"; "e"; "f"]%char.

Fixpoint all_hex (s : string) : bool :=
  match s with
  | EmptyString => true
  | String c rest => is_hex_digit c && all_hex rest
  end.

(** The same elimination reported twice in a row. *)
Definition eaten_twice (bot_id : string) : M World (response * response) :=
  a <- bot_was_eaten bot_id ;; b <- bot_was_eaten bot_id ;; ret (a, b).

(** A reset followed by a poll. *)
Definition reset_then_poll (count_arg : option Z)
  : M World (response * response) :=
  a <- reset_all_bots count_arg ;; b <- get_bots_data ;; ret (a, b).

(** The identifiers of the snapshots of a response body. *)
Definition snapshot_ids (j : json) : list string :=
  match j with
  | BotList bots => map bd_id bots
  | _ => []
  end.

(** * Properties *)

Ltac monad_simpl :=
  unfold bind, ret, raise, get, put, modify, lift_result, self, update_self,
    in_world, on_cells; simpl.

Lemma float_max_Rmax a b : float_max a b = Rmax a b.
Proof.
  unfold float_max, float_lt, Rmax.
  destruct (Rlt_dec a b), (Rle_dec a b); auto; lra.
Qed.

Lemma float_min_Rmin a b : float_min a b = Rmin a b.
Proof.
  unfold float_min, float_lt, Rmin.
  destruct (Rlt_dec b a), (Rle_dec a b); auto; lra.
Qed.

Lemma move_cell_float mx my c r :
  Cell.radius c = PyFloat r ->
  move_cell mx my c = (Ok tt, moved mx my r c).
Proof.
  intros Hr. unfold move_cell. monad_simpl. rewrite Hr. reflexivity.
Qed.

Lemma move_cell_keeps mx my c :
  Cell.id (snd (move_cell mx my c)) = Cell.id c
  /\ Cell.mass (snd (move_cell mx my c)) = Cell.mass c
  /\ Cell.radius (snd (move_cell mx my c)) = Cell.radius c.
Proof.
  unfold move_cell. monad_simpl.
  destruct (Cell.radius c) eqn:E; simpl; auto.
Qed.

Lemma for_each_move_cell mx my cs :
  Forall float_radius cs ->
  exists cs', for_each (move_cell mx my) cs = (Ok tt, cs')
              /\ Forall2 (cell_moved mx my) cs cs'.
Proof.
  induction 1 as [|c cs [r Hr] _ (cs' & IH & HF)].
  - exists []. split; [reflexivity | constructor].
  - exists (moved mx my r c :: cs'). simpl.
    rewrite (move_cell_float _ _ _ _ Hr), IH. split; [reflexivity|].
    constructor; [exists r; auto | assumption].
Qed.

Lemma for_each_move_cell_keeps mx my cs :
  Forall2 (fun c c' => Cell.id c' = Cell.id c /\ Cell.mass c' = Cell.mass c
                       /\ Cell.radius c' = Cell.radius c)
          cs (snd (for_each (move_cell mx my) cs)).
Proof.
  induction cs as [|c cs IH]; simpl; [constructor|].
  pose proof (move_cell_keeps mx my c) as Hk.
  destruct (move_cell mx my c) as [[[]|e] c']; simpl in *.
  - destruct (for_each (move_cell mx my) cs) as [r cs']; simpl in *.
    constructor; assumption.
  - constructor; [assumption|].
    clear. induction cs; constructor; auto.
Qed.

Lemma PI_pos : 0 < PI.
Proof. exact PI_RGT_0. Qed.

Lemma BOT_INITIAL_MASS_pos : 0 < BOT_INITIAL_MASS.
Proof. unfold BOT_INITIAL_MASS. pose proof PI_pos. nra. Qed.

Lemma bot_speed_value m :
  m <> - (BOT_INITIAL_MASS * 20) ->
  bot_speed m = Ok (Rmax 0.5 (BOT_BASE_SPEED / slowdown m)).
Proof.
  intros Hm. unfold bot_speed, float_div, slowdown.
  pose proof BOT_INITIAL_MASS_pos as Hp.
  destruct (Req_dec_T (BOT_INITIAL_MASS * 20) 0) as [E|_]; [lra|].
  destruct (Req_dec_T (1 + m / (BOT_INITIAL_MASS * 20)) 0) as [E|_].
  - exfalso. apply Hm.
    assert (m / (BOT_INITIAL_MASS * 20) = -1) as E1 by lra.
    apply (f_equal (fun v => v * (BOT_INITIAL_MASS * 20))) in E1.
    unfold Rdiv in E1. rewrite Rmult_assoc, Rinv_l in E1 by lra. lra.
  - rewrite float_max_Rmax. reflexivity.
Qed.

Lemma get_center_of_mass_eq (b : PyBot) (w : World) :
  get_center_of_mass (b, w) = (Ok (center_of_mass b), (b, w)).
Proof.
  unfold get_center_of_mass, center_of_mass. monad_simpl.
  destruct (Bot.cells b) as [|c cs]; simpl; [reflexivity|].
  unfold float_truth, float_div.
  destruct (Req_dec_T (Bot.total_mass b) 0); reflexivity.
Qed.

Lemma update_position_empty dt b w :
  Bot.cells b = [] -> update_position dt (b, w) = (Ok tt, (b, w)).
Proof.
  intros H. unfold update_position. monad_simpl. rewrite H. reflexivity.
Qed.

(** Case analysis on the tests met while running [update_position]. *)
Ltac split_update :=
  repeat (simpl;
          match goal with
          | |- context [match num_lt_float ?a ?b with _ => _ end] =>
              destruct (num_lt_float a b) as [[|]|?]
          | |- context [if float_lt ?a ?b then _ else _] =>
              destruct (float_lt a b)
          | |- context [match bot_speed ?m with _ => _ end] =>
              destruct (bot_speed m)
          | |- context [for_each ?f ?l] =>
              destruct (for_each f l) as [[[]|?] ?]
          end).

(** [update_position] neither reads nor writes the registry. *)
Lemma update_position_set_bots_data dt b w d :
  update_position dt (b, set_bots_data w d) =
  (fst (update_position dt (b, w)),
   (fst (snd (update_position dt (b, w))),
    set_bots_data (snd (snd (update_position dt (b, w)))) d)).
Proof.
  unfold update_position. monad_simpl.
  destruct (is_empty (Bot.cells b)); [reflexivity|].
  rewrite !get_center_of_mass_eq.
  split_update; reflexivity.
Qed.

Lemma float_pow_half_sq_sum a b :
  float_pow_half (float_pow_2 a + float_pow_2 b)
  = PyFloat (sqrt (a * a + b * b)).
Proof.
  unfold float_pow_half, float_pow_2.
  destruct (Rle_dec 0 (a * a + b * b)) as [_|H]; [reflexivity|].
  exfalso. apply H. nra.
Qed.

Lemma update_position_ok dt b w :
  Bot.cells b <> [] -> updatable b ->
  exists b' w' angle,
    let speed := Rmax 0.5 (BOT_BASE_SPEED / slowdown (Bot.total_mass b)) in
    update_position dt (b, w) = (Ok tt, (b', w'))
    /\ bots_data w' = bots_data w
    /\ Bot.id b' = Bot.id b
    /\ Bot.total_mass b' = Bot.total_mass b
    /\ Forall2 (cell_moved (cos angle * speed * dt * 60)
                           (sin angle * speed * dt * 60))
               (Bot.cells b) (Bot.cells b').
Proof.
  intros Hne [Hfl Htm].
  unfold update_position. monad_simpl.
  destruct (Bot.cells b) as [|c0 cs0] eqn:Hcells; [congruence|]. simpl.
  rewrite get_center_of_mass_eq. simpl.
  rewrite float_pow_half_sq_sum. simpl.
  rewrite <- Hcells in *.
  destruct (float_lt _ 50); simpl.
  - rewrite (bot_speed_value _ Htm). simpl.
    match goal with |- context [for_each (move_cell ?mx ?my) _] =>
      destruct (for_each_move_cell mx my _ Hfl) as (cs' & -> & HF) end.
    simpl. eexists _, _, _. repeat split; try reflexivity. simpl. exact HF.
  - destruct (float_lt _ 0.01); simpl;
      rewrite (bot_speed_value _ Htm); simpl;
      match goal with |- context [for_each (move_cell ?mx ?my) _] =>
        destruct (for_each_move_cell mx my _ Hfl) as (cs' & -> & HF) end;
      simpl; eexists _, _, _; repeat split; try reflexivity; simpl; exact HF.
Qed.

Lemma mass_to_radius_nonneg m :
  0 <= m -> mass_to_radius m = PyFloat (sqrt (m / PI)).
Proof.
  intros Hm. unfold mass_to_radius, float_pow_half.
  destruct (Rle_dec 0 (m / PI)) as [_|H]; [reflexivity|].
  exfalso. apply H. apply Rmult_le_pos; [assumption|].
  left. apply Rinv_0_lt_compat, PI_pos.
Qed.

Lemma mass_to_radius_of_radius r :
  0 <= r -> mass_to_radius (radius_to_mass r) = PyFloat r.
Proof.
  intros Hr. pose proof PI_pos as Hp. unfold radius_to_mass.
  rewrite mass_to_radius_nonneg by nra.
  replace (PI * r * r / PI) with (r * r) by (field; lra).
  rewrite sqrt_square by assumption. reflexivity.
Qed.

Lemma radius_to_mass_pos r : 0 < r -> 0 < radius_to_mass r.
Proof.
  intros Hr. unfold radius_to_mass. pose proof PI_pos.
  apply Rmult_lt_0_compat; [apply Rmult_lt_0_compat|]; assumption.
Qed.

Lemma one_cell_updatable i n col c tx ty t r :
  0 < r -> Cell.radius c = PyFloat r ->
  updatable (Bot.mk i n col [c] tx ty t (radius_to_mass r)).
Proof.
  intros Hr Hc. split; simpl.
  - constructor; [exists r; assumption | constructor].
  - pose proof (radius_to_mass_pos r Hr). pose proof BOT_INITIAL_MASS_pos. lra.
Qed.

(** ** Bounds clamp (C4) *)

Lemma clamp_lower r lim v : r <= float_max r (float_min (lim - r) v).
Proof. rewrite float_max_Rmax. apply Rmax_l. Qed.

Lemma clamp_upper r lim v :
  2 * r <= lim -> float_max r (float_min (lim - r) v) <= lim - r.
Proof.
  intros H. rewrite float_max_Rmax, float_min_Rmin.
  apply Rmax_lub; [lra | apply Rmin_l].
Qed.

Lemma clamp_wide r lim v :
  lim < 2 * r -> float_max r (float_min (lim - r) v) = r.
Proof.
  intros H. rewrite float_max_Rmax, float_min_Rmin.
  apply Rmax_left. pose proof (Rmin_l (lim - r) v). lra.
Qed.

Lemma cell_moved_clamped mx my c c' : cell_moved mx my c c' -> clamped c'.
Proof.
  intros (r & Hr & ->). exists r. unfold moved; simpl.
  repeat split; auto using clamp_lower, clamp_upper, clamp_wide.
Qed.

Lemma Forall2_right {A B} (R : A -> B -> Prop) (P : B -> Prop) l l' :
  (forall a b, R a b -> P b) -> Forall2 R l l' -> Forall P l'.
Proof. intros H; induction 1; constructor; eauto. Qed.

(** C4, amended: after [update_position] has run on a bot with cells, every
    cell has [radius <= x] and [radius <= y], and [x <= WORLD_WIDTH - radius]
    (resp. [y <= WORLD_HEIGHT - radius]) as soon as the cell is not wider
    than the arena ([2 * radius <= 3000]); a cell wider than the arena is
    left at [x = radius] (resp. [y = radius]). *)
Theorem bounds_clamp (b : PyBot) (delta_time : R) (w : World) :
  Bot.cells b <> [] -> updatable b ->
  exists b' w',
    update_position delta_time (b, w) = (Ok tt, (b', w'))
    /\ Forall clamped (Bot.cells b').
Proof.
  intros Hne Hu.
  destruct (update_position_ok delta_time b w Hne Hu)
    as (b' & w' & angle & Heq & _ & _ & _ & HF).
  exists b', w'. split; [exact Heq|].
  eapply Forall2_right; [|exact HF]. intros c c'. apply cell_moved_clamped.
Qed.

Lemma bounds_clamp_witness :
  (exists b' w',
      update_position 1 (small_bot, world0) = (Ok tt, (b', w'))
      /\ Forall clamped (Bot.cells b'))
  /\ (exists b' w',
         update_position 1 (big_bot, world0) = (Ok tt, (b', w'))
         /\ Forall clamped (Bot.cells b')).
Proof.
  split.
  - apply (bounds_clamp small_bot 1 world0).
    + discriminate.
    + apply one_cell_updatable; [lra | reflexivity].
  - apply (bounds_clamp big_bot 1 world0).
    + discriminate.
    + apply one_cell_updatable; [lra | reflexivity].
Defined.

(** C4 as stated fails for a cell wider than the arena: a bot in a
    consistent state (radius 2000 for mass pi * 2000^2, total mass equal to
    that mass) is updated without error and its cell is left at x = 2000,
    beyond [WORLD_WIDTH - radius = 1000]. *)
Lemma bounds_clamp_counterexample :
  Cell.radius big_cell = mass_to_radius (Cell.mass big_cell)
  /\ Bot.total_mass big_bot = py_sum (map Cell.mass (Bot.cells big_bot))
  /\ exists b' w',
      update_position (1 / 60) (big_bot, world0) = (Ok tt, (b', w'))
      /\ ~ Forall in_bounds (Bot.cells b').
Proof.
  split; [|split].
  - simpl. rewrite mass_to_radius_of_radius by lra. reflexivity.
  - unfold py_sum; simpl. lra.
  - assert (Hu : updatable big_bot)
      by (apply one_cell_updatable; [lra | reflexivity]).
    assert (Hne : Bot.cells big_bot <> []) by discriminate.
    destruct (update_position_ok (1 / 60) big_bot world0 Hne Hu)
      as (b' & w' & angle & Heq & _ & _ & _ & HF).
    exists b', w'. split; [exact Heq|].
    simpl in HF. destruct (Bot.cells b') as [|c' l'].
    { inversion HF. }
    inversion HF as [|? ? ? ? Hc _]; subst.
    intros Hall. inversion Hall as [|? ? (r & Hr & Hx & _) _]; subst.
    destruct Hc as (r0 & Hr0 & ->). simpl in *.
    injection Hr0 as <-. injection Hr as <-.
    rewrite clamp_wide in Hx by (unfold WORLD_WIDTH; lra).
    unfold WORLD_WIDTH in Hx. lra.
Qed.

(** ** Speed law (C5) *)







(** ** Radius consistency (C6) *)

(** C6: a cell built with a mass [m >= 0] has radius [sqrt (m / pi)];
    [update_mass] stores the new mass and the radius recomputed from it and
    touches nothing else; the only other code that writes to a cell, the loop
    body of [update_position], changes neither mass nor radius. *)
Theorem radius_consistency (x y m new_mass : R) (cell_id : option string)
        (w : World) (c0 : PyBotCell) (move_x move_y : R) :
  0 <= m -> 0 <= new_mass ->
  (exists c w', PyBotCell_init x y m cell_id w = (Ok c, w')
                /\ Cell.mass c = m
                /\ Cell.radius c = PyFloat (sqrt (m / PI)))
  /\ (exists c', update_mass new_mass c0 = (Ok tt, c')
                 /\ Cell.mass c' = new_mass
                 /\ Cell.radius c' = PyFloat (sqrt (new_mass / PI))
                 /\ Cell.id c' = Cell.id c0
                 /\ Cell.x c' = Cell.x c0 /\ Cell.y c' = Cell.y c0)
  /\ Cell.mass (snd (move_cell move_x move_y c0)) = Cell.mass c0
  /\ Cell.radius (snd (move_cell move_x move_y c0)) = Cell.radius c0.
Proof.
  intros Hm Hn. split; [|split].
  - unfold PyBotCell_init, str_or. monad_simpl.
    destruct cell_id as [[|a s]|]; simpl;
      eexists _, _; (split; [reflexivity|]); simpl;
      auto using mass_to_radius_nonneg.
  - unfold update_mass. monad_simpl. eexists. split; [reflexivity|]. simpl.
    auto using mass_to_radius_nonneg.
  - pose proof (move_cell_keeps move_x move_y c0) as (_ & H1 & H2). auto.
Qed.

Lemma radius_consistency_witness :
  (exists c w', PyBotCell_init 200 300 100 None world0 = (Ok c, w')
                /\ Cell.mass c = 100
                /\ Cell.radius c = PyFloat (sqrt (100 / PI)))
  /\ (exists c', update_mass 50 small_cell = (Ok tt, c')
                 /\ Cell.mass c' = 50
                 /\ Cell.radius c' = PyFloat (sqrt (50 / PI))
                 /\ Cell.id c' = Cell.id small_cell
                 /\ Cell.x c' = Cell.x small_cell
                 /\ Cell.y c' = Cell.y small_cell)
  /\ Cell.mass (snd (move_cell 1 2 small_cell)) = Cell.mass small_cell
  /\ Cell.radius (snd (move_cell 1 2 small_cell)) = Cell.radius small_cell.
Proof.
  apply (radius_consistency 200 300 100 50 None world0 small_cell 1 2); lra.
Defined.

(** ** Centre of mass (C8) *)

(** C8, amended: [get_center_of_mass] returns on every bot and every state,
    without changing either: the wander target when the bot has no cell, the
    position of the first cell when the [total_mass] attribute is zero, and
    otherwise the sums of [x * mass] and [y * mass] over the cells divided by
    the [total_mass] attribute.  That quotient is the mass-weighted average
    of the cell positions when [total_mass] is the sum of the cell masses. *)
Theorem center_of_mass_total (b : PyBot) (w : World) :
  exists p,
    get_center_of_mass (b, w) = (Ok p, (b, w))
    /\ p = match Bot.cells b with
           | [] => (Bot.target_x b, Bot.target_y b)
           | c :: _ =>
               if Req_dec_T (Bot.total_mass b) 0 then (Cell.x c, Cell.y c)
               else (py_sum (map (fun c => Cell.x c * Cell.mass c) (Bot.cells b))
                     / Bot.total_mass b,
                     py_sum (map (fun c => Cell.y c * Cell.mass c) (Bot.cells b))
                     / Bot.total_mass b)
           end
    /\ (mass_consistent b -> Bot.cells b <> [] -> Bot.total_mass b <> 0 ->
        p = weighted_average (Bot.cells b)).
Proof.
  exists (center_of_mass b).
  split; [apply get_center_of_mass_eq|]. split; [reflexivity|].
  intros Hc Hne Hm. unfold center_of_mass, weighted_average.
  destruct (Bot.cells b) as [|c cs] eqn:Hcells; [congruence|].
  destruct (Req_dec_T (Bot.total_mass b) 0) as [E|_]; [contradiction|].
  rewrite <- Hcells. unfold mass_consistent in Hc. rewrite <- Hc. reflexivity.
Qed.

Lemma center_of_mass_total_witness :
  get_center_of_mass (small_bot, world0)
  = (Ok (weighted_average (Bot.cells small_bot)), (small_bot, world0)).
Proof.
  destruct (center_of_mass_total small_bot world0) as (p & Heq & _ & Hw).
  rewrite Heq. rewrite Hw; [reflexivity | | discriminate |].
  - unfold mass_consistent, py_sum. simpl. lra.
  - simpl. pose proof (radius_to_mass_pos 15). lra.
Defined.

(** ** Construction *)

Lemma initial_radius : mass_to_radius BOT_INITIAL_MASS = PyFloat 15.
Proof.
  change BOT_INITIAL_MASS with (radius_to_mass 15).
  apply mass_to_radius_of_radius. lra.
Qed.

(** Runs the monadic plumbing and the record projections, nothing else. *)
Ltac run_monad :=
  lazy beta iota zeta delta
    [bind ret get put modify lift_result self update_self in_world on_cells
     construct uuid4_str random_random random_uniform random_randint time_time
     fst snd app is_empty andb
     Bot.id Bot.name Bot.color Bot.cells Bot.target_x Bot.target_y
     Bot.last_update_time Bot.total_mass set_cells set_total_mass
     set_bots_data bots_data uuid_source uuid_pos random_source random_pos
     randint_source randint_pos clock clock_pos].

Lemma PyBot_init_ok (bot_id name color : option string) (w : World) :
  exists b w',
    PyBot_init bot_id name color w = (Ok b, w')
    /\ fresh_bot b
    /\ bots_data w' = bots_data w.
Proof.
  unfold PyBot_init, add_initial_cell, recalculate_total_mass,
    PyBotCell_init, generate_bot_id, str_or, fresh_bot.
  destruct bot_id as [[|a1 s1]|], name as [[|a2 s2]|], color as [[|a3 s3]|];
    run_monad;
    (eexists _, _; split; [reflexivity|]; split; [|reflexivity];
     eexists; split; [reflexivity|]; simpl;
     repeat split; [apply initial_radius | unfold py_sum; simpl; apply Rplus_0_l]).
Qed.

(** The bot a constructor call builds, field by field, and the oracle reads
    it makes. *)
Lemma PyBot_init_fields (bot_id name color : option string) (w : World) :
  exists cid w',
    PyBot_init bot_id name color w
    = (Ok (Bot.mk (chosen_id bot_id w) (chosen_name bot_id name w)
                  (chosen_color color w)
                  [Cell.mk cid
                     (100 + (WORLD_WIDTH - 100 - 100)
                            * random_source w (S (S (random_pos w))))
                     (100 + (WORLD_HEIGHT - 100 - 100)
                            * random_source w (S (S (S (random_pos w)))))
                     BOT_INITIAL_MASS (mass_to_radius BOT_INITIAL_MASS)]
                  (0 + (WORLD_WIDTH - 0) * random_source w (random_pos w))
                  (0 + (WORLD_HEIGHT - 0) * random_source w (S (random_pos w)))
                  (clock w (clock_pos w))
                  (py_sum [BOT_INITIAL_MASS])),
       w')
    /\ bots_data w' = bots_data w
    /\ random_source w' = random_source w
    /\ random_pos w' = S (S (S (S (random_pos w))))
    /\ uuid_source w' = uuid_source w
    /\ clock w' = clock w /\ clock_pos w' = S (clock_pos w)
    /\ randint_pos w'
       = match color with
         | Some (String _ _) => randint_pos w
         | _ => S (randint_pos w)
         end
    /\ uuid_pos w'
       = match bot_id with
         | Some (String _ _) => S (uuid_pos w)
         | _ => S (S (uuid_pos w))
         end.
Proof.
  unfold PyBot_init, add_initial_cell, recalculate_total_mass,
    PyBotCell_init, generate_bot_id, str_or, chosen_id, chosen_name,
    chosen_color, generated_color.
  destruct bot_id as [[|a1 s1]|], name as [[|a2 s2]|], color as [[|a3 s3]|];
    run_monad; eexists _, _; (split; [reflexivity|]); repeat split.
Qed.

Lemma create_bot_instance_ok (w : World) :
  exists b w',
    create_bot_instance w = (Ok b, w')
    /\ fresh_bot b
    /\ Bot.id b = nth_bot_id w 0
    /\ bots_data w' = bots_data w
    /\ uuid_source w' = uuid_source w
    /\ uuid_pos w' = (uuid_pos w + 2)%nat.
Proof.
  unfold create_bot_instance, PyBot_init, add_initial_cell,
    recalculate_total_mass, PyBotCell_init, generate_bot_id, str_or,
    nth_bot_id, fresh_bot.
  run_monad.
  eexists _, _; split; [reflexivity|].
  split; [|rewrite Nat.add_0_r; repeat split; lia].
  eexists; split; [reflexivity|]; simpl.
  repeat split; [apply initial_radius | unfold py_sum; simpl; apply Rplus_0_l].
Qed.

(** C8 as stated fails on a bot whose [total_mass] is stale: after
    [cells[0].update_mass(2 * BOT_INITIAL_MASS)] on a freshly constructed bot
    the bot has a cell and neither [total_mass] nor the sum of the cell masses
    is zero, yet [get_center_of_mass] returns twice the position of the only
    cell, which is not the mass-weighted average of the cell positions. *)
Lemma center_of_mass_counterexample :
  exists b w1 b' p,
    create_bot_instance world0 = (Ok b, w1)
    /\ on_cells (at_index 0 (update_mass (2 * BOT_INITIAL_MASS))) (b, w1)
       = (Ok tt, (b', w1))
    /\ Bot.cells b' <> []
    /\ Bot.total_mass b' <> 0
    /\ py_sum (map Cell.mass (Bot.cells b')) <> 0
    /\ get_center_of_mass (b', w1) = (Ok p, (b', w1))
    /\ p <> weighted_average (Bot.cells b').
Proof.
  pose proof BOT_INITIAL_MASS_pos as Hp.
  destruct (PyBot_init_fields None None None world0) as (cid & w1 & Heq & _).
  eexists _, w1, _, (3000, 3000). split; [exact Heq|].
  split; [reflexivity|].
  rewrite get_center_of_mass_eq.
  unfold center_of_mass, weighted_average, py_sum, WORLD_WIDTH, WORLD_HEIGHT.
  cbn [on_cells at_index update_mass fst snd Bot.cells Bot.total_mass
       set_cells map fold_left Cell.x Cell.y Cell.mass random_source
       random_pos world0].
  unfold set_radius, set_mass.
  cbn [map fold_left Cell.x Cell.y Cell.mass].
  split; [discriminate|].
  split; [lra|]. split; [lra|].
  destruct (Req_dec_T (0 + BOT_INITIAL_MASS) 0) as [E|_]; [exfalso; lra|].
  replace ((0 + (100 + (3000 - 100 - 100) * (1 / 2)) * (2 * BOT_INITIAL_MASS))
           / (0 + BOT_INITIAL_MASS)) with 3000 by (field; lra).
  replace ((0 + (100 + (3000 - 100 - 100) * (1 / 2)) * (2 * BOT_INITIAL_MASS))
           / (0 + 2 * BOT_INITIAL_MASS)) with 1500 by (field; lra).
  split; [reflexivity|].
  intros E. apply (f_equal fst) in E. cbn [fst] in E. lra.
Qed.

(** ** Total mass (C7) *)

Lemma dict_del_mem {V} (k : string) (d : list (string * V)) :
  dict_mem k d = true ->
  exists d', dict_del k d = Ok d' /\ List.length d = S (List.length d').
Proof.
  induction d as [|[k' v'] d IH]; simpl; [discriminate|].
  destruct (String.eqb k k'); [eauto|].
  intros H. destruct (IH H) as (d' & -> & Hl). simpl. eauto.
Qed.

Lemma recalculate_total_mass_ok (b : PyBot) (w : World) :
  exists w',
    recalculate_total_mass (b, w)
    = (Ok tt, (set_total_mass b (py_sum (map Cell.mass (Bot.cells b))), w'))
    /\ (Bot.cells b <> [] -> w' = w).
Proof.
  unfold recalculate_total_mass. monad_simpl.
  destruct (Bot.cells b) as [|c cs] eqn:Hc; simpl.
  - destruct (dict_mem (Bot.id b) (bots_data w)) eqn:Hm.
    + destruct (dict_del_mem _ _ Hm) as (d' & -> & _).
      eexists; split; [reflexivity | congruence].
    + eexists; split; [reflexivity | congruence].
  - eexists; split; reflexivity.
Qed.

Lemma update_position_keeps dt b w :
  Bot.id (fst (snd (update_position dt (b, w)))) = Bot.id b
  /\ Bot.total_mass (fst (snd (update_position dt (b, w)))) = Bot.total_mass b
  /\ map Cell.mass (Bot.cells (fst (snd (update_position dt (b, w)))))
     = map Cell.mass (Bot.cells b)
  /\ is_empty (Bot.cells (fst (snd (update_position dt (b, w)))))
     = is_empty (Bot.cells b).
Proof.
  assert (K : forall mx my cs,
             map Cell.mass (snd (for_each (move_cell mx my) cs))
             = map Cell.mass cs
             /\ is_empty (snd (for_each (move_cell mx my) cs)) = is_empty cs).
  { intros mx my cs. pose proof (for_each_move_cell_keeps mx my cs) as HF.
    induction HF as [|c c' l l' (_ & Hm & _) _ [IH1 IH2]]; simpl; [auto|].
    split; [congruence | reflexivity]. }
  unfold update_position. monad_simpl.
  destruct (is_empty (Bot.cells b)) eqn:He; [simpl; auto|].
  rewrite get_center_of_mass_eq.
  repeat (simpl;
          match goal with
          | |- context [match num_lt_float ?a ?b with _ => _ end] =>
              destruct (num_lt_float a b) as [[|]|?]
          | |- context [if float_lt ?a ?b then _ else _] =>
              destruct (float_lt a b)
          | |- context [match bot_speed ?m with _ => _ end] =>
              destruct (bot_speed m)
          | |- context [for_each (move_cell ?mx ?my) ?l] =>
              let H := fresh in
              pose proof (K mx my l) as H;
              destruct (for_each (move_cell mx my) l) as [[[]|?] ?]
          end); simpl in *; intuition congruence.
Qed.

Lemma add_initial_cell_ok (b : PyBot) (w : World) :
  exists c b' w',
    add_initial_cell (b, w) = (Ok tt, (b', w'))
    /\ Bot.cells b' = Bot.cells b ++ [c]
    /\ Cell.mass c = BOT_INITIAL_MASS
    /\ mass_consistent b'.
Proof.
  unfold add_initial_cell, PyBotCell_init, str_or.
  run_monad.
  match goal with
  | |- context [recalculate_total_mass (?b1, ?w1)] =>
      destruct (recalculate_total_mass_ok b1 w1) as (w2 & -> & _)
  end.
  eexists _, _, _. split; [reflexivity|].
  unfold mass_consistent. simpl. auto.
Qed.

(** C7, amended: [total_mass] is the sum of the cell masses after
    construction, after [recalculate_total_mass] and after
    [add_initial_cell]; [update_position] changes neither side, so it keeps
    the equality where it holds.  ([PyBotCell.update_mass] is not covered:
    it does not refresh the total of the owning bot.) *)
Theorem total_mass_invariant (b : PyBot) (w : World) (delta_time : R)
        (bot_id name color : option string) :
  mass_consistent b ->
  (exists b0 w', PyBot_init bot_id name color w = (Ok b0, w')
                 /\ mass_consistent b0
                 /\ Bot.total_mass b0 = BOT_INITIAL_MASS)
  /\ (forall b1, exists b' w',
         recalculate_total_mass (b1, w) = (Ok tt, (b', w'))
         /\ Bot.cells b' = Bot.cells b1 /\ mass_consistent b')
  /\ (forall b1, exists c b' w',
         add_initial_cell (b1, w) = (Ok tt, (b', w'))
         /\ Bot.cells b' = Bot.cells b1 ++ [c] /\ mass_consistent b')
  /\ mass_consistent (fst (snd (update_position delta_time (b, w))))
  /\ Bot.total_mass (fst (snd (update_position delta_time (b, w))))
     = Bot.total_mass b.
Proof.
  intros Hb. split; [|split; [|split; [|split]]].
  - destruct (PyBot_init_ok bot_id name color w)
      as (b0 & w' & Heq & (c & Hc & Hm & _ & Ht) & _).
    exists b0, w'. split; [exact Heq|]. split; [|exact Ht].
    unfold mass_consistent, py_sum. rewrite Hc, Ht. simpl. rewrite Hm. lra.
  - intros b1. destruct (recalculate_total_mass_ok b1 w) as (w' & Heq & _).
    eexists _, w'. split; [exact Heq|]. split; reflexivity.
  - intros b1. destruct (add_initial_cell_ok b1 w)
      as (c & b' & w' & Heq & Hc & _ & Hm).
    exists c, b', w'. auto.
  - destruct (update_position_keeps delta_time b w) as (_ & Ht & Hm & _).
    unfold mass_consistent in *. rewrite Ht, Hm. exact Hb.
  - apply update_position_keeps.
Qed.

Lemma total_mass_invariant_witness :
  (exists b0 w', PyBot_init None None None world0 = (Ok b0, w')
                 /\ mass_consistent b0
                 /\ Bot.total_mass b0 = BOT_INITIAL_MASS)
  /\ (forall b1, exists b' w',
         recalculate_total_mass (b1, world0) = (Ok tt, (b', w'))
         /\ Bot.cells b' = Bot.cells b1 /\ mass_consistent b')
  /\ (forall b1, exists c b' w',
         add_initial_cell (b1, world0) = (Ok tt, (b', w'))
         /\ Bot.cells b' = Bot.cells b1 ++ [c] /\ mass_consistent b')
  /\ mass_consistent (fst (snd (update_position 1 (small_bot, world0))))
  /\ Bot.total_mass (fst (snd (update_position 1 (small_bot, world0))))
     = Bot.total_mass small_bot.
Proof.
  apply (total_mass_invariant small_bot world0 1 None None None).
  unfold mass_consistent, py_sum; simpl. lra.
Defined.

(** C7 as stated fails at a mass mutation: on a freshly constructed bot,
    [cells[0].update_mass(2 * BOT_INITIAL_MASS)] returns and leaves
    [total_mass] at the old mass, not at the sum of the cell masses. *)
Lemma total_mass_counterexample :
  exists b w1 b',
    create_bot_instance world0 = (Ok b, w1)
    /\ on_cells (at_index 0 (update_mass (2 * BOT_INITIAL_MASS))) (b, w1)
       = (Ok tt, (b', w1))
    /\ ~ mass_consistent b'.
Proof.
  destruct (create_bot_instance_ok world0)
    as (b & w1 & Heq & (c & Hc & Hm & _ & Ht) & _).
  exists b, w1. eexists. split; [exact Heq|].
  unfold on_cells. simpl. rewrite Hc. simpl. split; [reflexivity|].
  unfold mass_consistent, py_sum. simpl. rewrite Ht.
  pose proof BOT_INITIAL_MASS_pos. lra.
Qed.

(** ** The dictionary *)

Section DictFacts.
Context {V : Type}.
Implicit Types (d : list (string * V)) (k : string).

Lemma dict_mem_In k d : dict_mem k d = true <-> In k (dict_keys d).
Proof.
  induction d as [|[k' v'] d IH]; simpl.
  - split; [discriminate | tauto].
  - destruct (String.eqb_spec k k') as [->|Hne].
    + split; auto.
    + rewrite IH. split; [auto | intros [E|H]; congruence].
Qed.

Lemma dict_mem_false k d : dict_mem k d = false <-> ~ In k (dict_keys d).
Proof.
  rewrite <- dict_mem_In. destruct (dict_mem k d); split; congruence.
Qed.

(** The keys after [d[k] = v]. *)
Lemma dict_keys_set k v d :
  dict_keys (dict_set k v d)
  = if dict_mem k d then dict_keys d else dict_keys d ++ [k].
Proof.
  induction d as [|[k' v'] d IH]; simpl; [reflexivity|].
  destruct (String.eqb k k'); simpl; [reflexivity|].
  rewrite IH. destruct (dict_mem k d); reflexivity.
Qed.

Lemma dict_length_set k v d :
  List.length (dict_set k v d)
  = if dict_mem k d then List.length d else S (List.length d).
Proof.
  induction d as [|[k' v'] d IH]; simpl; [reflexivity|].
  destruct (String.eqb k k'); simpl; [reflexivity|].
  rewrite IH. destruct (dict_mem k d); reflexivity.
Qed.

Lemma dict_values_set (P : V -> Prop) k v d :
  P v -> Forall P (dict_values d) -> Forall P (dict_values (dict_set k v d)).
Proof.
  intros Hv. induction d as [|[k' v'] d IH]; simpl; intros H.
  - constructor; auto.
  - inversion H; subst.
    destruct (String.eqb k k'); simpl; constructor; auto.
Qed.

Lemma dict_del_spec k d :
  dict_mem k d = true ->
  exists d1 v d2,
    d = d1 ++ (k, v) :: d2 /\ dict_del k d = Ok (d1 ++ d2)
    /\ ~ In k (dict_keys d1).
Proof.
  induction d as [|[k' v'] d IH]; simpl; [discriminate|].
  destruct (String.eqb_spec k k') as [->|Hne]; intros H.
  - exists [], v', d. simpl. auto.
  - destruct (IH H) as (d1 & v & d2 & -> & -> & Hn).
    exists ((k', v') :: d1), v, d2. simpl.
    repeat split; auto. intros [E|Hin]; [congruence | auto].
Qed.

(** [d[k] = v] on a present key replaces the value in place. *)
Lemma dict_set_present k v v0 d1 d2 :
  ~ In k (dict_keys d1) ->
  dict_set k v (d1 ++ (k, v0) :: d2) = d1 ++ (k, v) :: d2.
Proof.
  induction d1 as [|[k' v'] d1 IH]; simpl; intros Hn.
  - rewrite String.eqb_refl. reflexivity.
  - destruct (String.eqb_spec k k') as [->|Hne]; [tauto|].
    rewrite IH by tauto. reflexivity.
Qed.
End DictFacts.

(** ** Spawning *)

Lemma dict_mem_existsb {V} k (d : list (string * V)) :
  dict_mem k d = existsb (String.eqb k) (dict_keys d).
Proof.
  induction d as [|[k' v'] d IH]; simpl; [reflexivity|].
  destruct (String.eqb k k'); simpl; auto.
Qed.

Lemma add_keys_fresh ids : forall ks,
  NoDup (ks ++ ids) -> fold_left add_key ids ks = ks ++ ids.
Proof.
  induction ids as [|k ids IH]; intros ks Hnd; simpl.
  - rewrite app_nil_r. reflexivity.
  - assert (Hk : existsb (String.eqb k) ks = false).
    { destruct (existsb (String.eqb k) ks) eqn:E; [|reflexivity].
      apply existsb_exists in E. destruct E as (k' & Hin & E).
      apply String.eqb_eq in E. subst k'.
      apply NoDup_remove_2 in Hnd. exfalso. apply Hnd.
      apply in_or_app. auto. }
    unfold add_key at 2. rewrite Hk.
    rewrite IH; rewrite <- app_assoc; simpl; [reflexivity | exact Hnd].
Qed.

Lemma add_keys_length ids : forall ks,
  (List.length (fold_left add_key ids ks) <= List.length ks + List.length ids)%nat.
Proof.
  induction ids as [|k ids IH]; intros ks; simpl; [lia|].
  specialize (IH (add_key ks k)). unfold add_key in *.
  destruct (existsb (String.eqb k) ks); [lia|].
  rewrite length_app in IH. simpl in IH. lia.
Qed.

Lemma nth_bot_id_shift w w' i :
  uuid_source w' = uuid_source w -> uuid_pos w' = (uuid_pos w + 2)%nat ->
  nth_bot_id w' i = nth_bot_id w (S i).
Proof.
  intros Hs Hp. unfold nth_bot_id. rewrite Hs, Hp.
  do 2 f_equal. f_equal. lia.
Qed.

(** The loop shared by [reset_all_bots] and the start-up block. *)
Lemma spawn_loop n : forall w,
  exists w',
    for_range n
      (bot <- create_bot_instance ;;
       modify (fun w => set_bots_data w (dict_set (Bot.id bot) bot (bots_data w))))
      w = (Ok tt, w')
    /\ uuid_source w' = uuid_source w
    /\ uuid_pos w' = (uuid_pos w + 2 * n)%nat
    /\ dict_keys (bots_data w')
       = fold_left add_key (map (nth_bot_id w) (seq 0 n)) (dict_keys (bots_data w))
    /\ (Forall fresh_bot (dict_values (bots_data w)) ->
        Forall fresh_bot (dict_values (bots_data w'))).
Proof.
  induction n as [|n IH]; intros w.
  - exists w. simpl. unfold ret. repeat split; auto; lia.
  - destruct (create_bot_instance_ok w)
      as (b & w1 & Hc & Hf & Hid & Hd & Hs & Hp).
    specialize (IH (set_bots_data w1 (dict_set (Bot.id b) b (bots_data w1)))).
    destruct IH as (w' & Hloop & Hs' & Hp' & Hk & Hfr).
    exists w'. cbn [for_range]. unfold bind at 1. unfold bind at 1.
    rewrite Hc. unfold modify at 1. rewrite Hloop.
    simpl in Hs', Hp', Hk, Hfr.
    repeat split.
    + congruence.
    + lia.
    + rewrite Hk. cbn [seq map fold_left]. rewrite <- seq_shift, map_map.
      rewrite dict_keys_set, dict_mem_existsb, Hd, Hid.
      f_equal. apply map_ext. intros i.
      apply (nth_bot_id_shift w (set_bots_data w1 _)); simpl; assumption.
    + intros H. apply Hfr. apply dict_values_set; [exact Hf|].
      rewrite Hd. exact H.
Qed.

Lemma filter_live_fresh (bs : list PyBot) :
  Forall fresh_bot bs ->
  filter (fun b => negb (is_empty (Bot.cells b))) bs = bs.
Proof.
  induction 1 as [|b bs (c & Hc & _) _ IH]; simpl; [reflexivity|].
  rewrite Hc, IH. reflexivity.
Qed.

(** What [reset_all_bots] does for a count given as a natural number. *)
Lemma reset_all_bots_spec (n : Z) (w : World) :
  exists w',
    reset_all_bots (Some n) w
    = (Ok (BotList (map bot_to_dict (dict_values (bots_data w'))), 200%Z), w')
    /\ dict_keys (bots_data w')
       = fold_left add_key (map (nth_bot_id w) (seq 0 (Z.to_nat n))) []
    /\ Forall fresh_bot (dict_values (bots_data w')).
Proof.
  destruct (spawn_loop (Z.to_nat n) (set_bots_data w []))
    as (w' & Hloop & _ & _ & Hk & Hf).
  exists w'. unfold reset_all_bots.
  unfold bind at 1. unfold modify at 1. unfold bind at 1. rewrite Hloop.
  simpl in Hf. specialize (Hf (Forall_nil _)).
  monad_simpl. unfold jsonify. rewrite (filter_live_fresh _ Hf).
  repeat split; [|exact Hf]. rewrite Hk. reflexivity.
Qed.

(** Whatever the identifiers drawn, a reset leaves at most [count] bots. *)
Lemma reset_all_bots_at_most (n : nat) (w : World) :
  exists r w',
    reset_all_bots (Some (Z.of_nat n)) w = (Ok r, w')
    /\ (List.length (bots_data w') <= n)%nat.
Proof.
  destruct (reset_all_bots_spec (Z.of_nat n) w) as (w' & Heq & Hk & _).
  eexists _, w'. split; [exact Heq|].
  rewrite <- (length_map fst). fold (dict_keys (bots_data w')).
  rewrite Hk, Nat2Z.id.
  pose proof (add_keys_length (map (nth_bot_id w) (seq 0 n)) []) as H.
  rewrite length_map, length_seq in H. exact H.
Qed.

(** ** Reset (C2, C10) *)




(** C10: a negative [count] gives what [count=0] gives: the registry is
    emptied, nothing is drawn from the oracles (no bot is constructed) and
    the empty list is returned with status 200. *)
Theorem reset_negative (n : Z) (w : World) :
  (n < 0)%Z ->
  reset_all_bots (Some n) w = reset_all_bots (Some 0%Z) w
  /\ reset_all_bots (Some n) w = (Ok (BotList [], 200%Z), set_bots_data w []).
Proof.
  intros Hn. destruct n as [|p|p]; try lia. split; reflexivity.
Qed.

Lemma reset_negative_witness :
  reset_all_bots (Some (-5)%Z) world0 = reset_all_bots (Some 0%Z) world0
  /\ reset_all_bots (Some (-5)%Z) world0
     = (Ok (BotList [], 200%Z), set_bots_data world0 []).
Proof. apply (reset_negative (-5) world0). reflexivity. Defined.

(** ** Eliminate (C3) *)

Lemma bot_was_eaten_absent (bot_id : string) (w : World) :
  dict_mem bot_id (bots_data w) = false ->
  bot_was_eaten bot_id w
  = (Ok (Message ("Bot " ++ bot_id ++ " not found.")%string, 404%Z), w).
Proof.
  intros H.
  cbv beta iota delta [bot_was_eaten bind get ret jsonify].
  rewrite H. reflexivity.
Qed.

Lemma bot_was_eaten_present (bot_id : string) (w : World) :
  dict_mem bot_id (bots_data w) = true ->
  exists d1 old d2 new_bot w',
    bots_data w = d1 ++ (bot_id, old) :: d2
    /\ ~ In bot_id (dict_keys d1)
    /\ bot_was_eaten bot_id w
       = (Ok (Message ("Bot " ++ bot_id ++ " acknowledged as eaten, new bot "
                       ++ Bot.id new_bot ++ " spawned.")%string, 200%Z), w')
    /\ fresh_bot new_bot
    /\ Bot.id new_bot = nth_bot_id w 0
    /\ bots_data w' = dict_set (Bot.id new_bot) new_bot (d1 ++ d2).
Proof.
  intros H.
  destruct (dict_del_spec _ _ H) as (d1 & old & d2 & Hd & Hdel & Hn).
  destruct (create_bot_instance_ok (set_bots_data w (d1 ++ d2)))
    as (b & w1 & Hc & Hf & Hid & Hbd & _ & _).
  exists d1, old, d2, b.
  eexists. split; [exact Hd|]. split; [exact Hn|].
  cbv beta iota delta [bot_was_eaten bind get lift_result modify ret jsonify].
  rewrite H. cbv beta iota. rewrite Hdel. cbv beta iota.
  rewrite Hc. cbv beta iota.
  split; [reflexivity|]. split; [exact Hf|].
  split; [rewrite Hid; reflexivity|].
  simpl. rewrite Hbd. reflexivity.
Qed.

(** C3, amended: when [bot_id] is not registered the handler answers 404
    and changes nothing.  When it is registered, its entry is removed, one
    bot is constructed and stored under its generated identifier, and the
    answer is 200; the number of bots is the one before, unless the generated
    identifier is the key of another registered bot, whose entry the new bot
    then replaces, leaving one bot less. *)
Theorem eliminate_semantics (bot_id : string) (w : World) :
  NoDup (dict_keys (bots_data w)) ->
  if dict_mem bot_id (bots_data w) then
    exists rest new_bot w',
      dict_del bot_id (bots_data w) = Ok rest
      /\ dict_mem bot_id rest = false
      /\ bot_was_eaten bot_id w
         = (Ok (Message ("Bot " ++ bot_id ++ " acknowledged as eaten, new bot "
                         ++ Bot.id new_bot ++ " spawned.")%string, 200%Z), w')
      /\ (exists c, Bot.cells new_bot = [c] /\ Cell.mass c = BOT_INITIAL_MASS)
      /\ Bot.id new_bot = nth_bot_id w 0
      /\ bots_data w' = dict_set (Bot.id new_bot) new_bot rest
      /\ List.length (bots_data w')
         = (if dict_mem (Bot.id new_bot) rest
            then List.length (bots_data w) - 1
            else List.length (bots_data w))%nat
  else
    bot_was_eaten bot_id w
    = (Ok (Message ("Bot " ++ bot_id ++ " not found.")%string, 404%Z), w).
Proof.
  intros Hnd.
  destruct (dict_mem bot_id (bots_data w)) eqn:Hm;
    [|apply bot_was_eaten_absent; exact Hm].
  destruct (bot_was_eaten_present _ _ Hm)
    as (d1 & old & d2 & b & w' & Hd & Hn & Heq & (c & Hc & Hmass & _) & Hid & Hbd).
  exists (d1 ++ d2), b, w'.
  assert (Hdel : dict_del bot_id (bots_data w) = Ok (d1 ++ d2)).
  { destruct (dict_del_spec _ _ Hm) as (e1 & v & e2 & He & Hdel & Hne).
    rewrite Hdel. f_equal. rewrite Hd in He.
    clear - He Hn Hne. revert e1 He Hne.
    induction d1 as [|[k1 v1] d1 IH]; intros [|[k2 v2] e1] He Hne;
      simpl in *.
    - congruence.
    - injection He as <- _ _. tauto.
    - injection He as -> _ _. tauto.
    - injection He as <- <- He. f_equal. apply IH; tauto. }
  repeat split; auto.
  - apply dict_mem_false. rewrite Hd in Hnd.
    unfold dict_keys in *. rewrite map_app in *. simpl in Hnd.
    apply NoDup_remove_2 in Hnd. exact Hnd.
  - eauto.
  - rewrite Hbd, dict_length_set, Hd.
    destruct (dict_mem (Bot.id b) (d1 ++ d2));
      rewrite !length_app; simpl; lia.
Qed.

Lemma eliminate_semantics_witness :
  exists rest new_bot w',
    dict_del "pybot_3f2a9c1e" (bots_data world_two) = Ok rest
    /\ dict_mem "pybot_3f2a9c1e" rest = false
    /\ bot_was_eaten "pybot_3f2a9c1e" world_two
       = (Ok (Message ("Bot " ++ "pybot_3f2a9c1e"
                       ++ " acknowledged as eaten, new bot "
                       ++ Bot.id new_bot ++ " spawned.")%string, 200%Z), w')
    /\ (exists c, Bot.cells new_bot = [c] /\ Cell.mass c = BOT_INITIAL_MASS)
    /\ Bot.id new_bot = nth_bot_id world_two 0
    /\ bots_data w' = dict_set (Bot.id new_bot) new_bot rest
    /\ List.length (bots_data w')
       = (if dict_mem (Bot.id new_bot) rest
          then List.length (bots_data world_two) - 1
          else List.length (bots_data world_two))%nat.
Proof.
  apply (eliminate_semantics "pybot_3f2a9c1e" world_two).
  repeat constructor; simpl; intuition discriminate.
Defined.

(** C3 as stated fails when the identifier generated for the replacement is
    the key of another registered bot: eliminating the first of two bots
    answers 200 and leaves one bot where there were two. *)
Lemma eliminate_counterexample :
  List.length (bots_data world_two) = 2%nat
  /\ exists r w',
      bot_was_eaten "pybot_aaaaaaaa" world_two = (Ok (r, 200%Z), w')
      /\ List.length (bots_data w') = 1%nat.
Proof.
  split; [reflexivity|].
  assert (Hm : dict_mem "pybot_aaaaaaaa" (bots_data world_two) = true)
    by reflexivity.
  destruct (bot_was_eaten_present _ _ Hm)
    as (d1 & old & d2 & b & w' & Hd & Hn & Heq & _ & Hid & Hbd).
  eexists _, w'. split; [exact Heq|].
  assert (Hrest : d1 ++ d2 = [("pybot_3f2a9c1e"%string, small_bot)]).
  { destruct d1 as [|[k1 v1] d1]; simpl in Hd.
    - injection Hd as _ <-. reflexivity.
    - injection Hd as <- _ _. simpl in Hn. tauto. }
  rewrite Hbd, Hrest, Hid. reflexivity.
Qed.

(** ** List-and-advance (C1) *)

Lemma update_position_runs dt b w :
  updatable b ->
  exists b' w', update_position dt (b, w) = (Ok tt, (b', w'))
                /\ bots_data w' = bots_data w.
Proof.
  intros Hu. destruct (Bot.cells b) as [|c cs] eqn:Hc.
  - exists b, w. split; [apply update_position_empty; exact Hc | reflexivity].
  - assert (Hne : Bot.cells b <> []) by congruence.
    destruct (update_position_ok dt b w Hne Hu) as (b' & w' & a & H & Hd & _).
    eauto.
Qed.

Lemma advance_all_set_bots_data ct items : forall w d,
  advance_all ct items (set_bots_data w d)
  = (fst (advance_all ct items w),
     set_bots_data (snd (advance_all ct items w)) d).
Proof.
  induction items as [|[k b] rest IH]; intros w d; [reflexivity|].
  cbn [advance_all]. rewrite update_position_set_bots_data.
  cbn [fst snd]. rewrite IH. reflexivity.
Qed.

Lemma dict_del_present {V} k (v : V) d1 d2 :
  ~ In k (dict_keys d1) ->
  dict_del k (d1 ++ (k, v) :: d2) = Ok (d1 ++ d2).
Proof.
  induction d1 as [|[k' v'] d1 IH]; simpl; intros Hn.
  - rewrite String.eqb_refl. reflexivity.
  - destruct (String.eqb_spec k k') as [->|Hne]; [tauto|].
    rewrite IH by tauto. reflexivity.
Qed.

Lemma dict_mem_middle {V} k (v : V) d1 d2 :
  dict_mem k (d1 ++ (k, v) :: d2) = true.
Proof.
  apply dict_mem_In. unfold dict_keys. rewrite map_app.
  apply in_or_app. right. left. reflexivity.
Qed.

Lemma get_bots_loop_spec ct todo : forall done acc w,
  bots_data w = done ++ todo ->
  NoDup (dict_keys (done ++ todo)) ->
  Forall updatable (dict_values todo) ->
  get_bots_loop ct todo acc w
  = (Ok (acc ++ map bot_to_dict
                    (dict_values (filter has_cells (fst (advance_all ct todo w))))),
     set_bots_data (snd (advance_all ct todo w))
                   (done ++ filter has_cells (fst (advance_all ct todo w)))).
Proof.
  induction todo as [|[k b] rest IH]; intros done acc w Hw Hnd Hu.
  - simpl. unfold ret. rewrite !app_nil_r. rewrite app_nil_r in Hw.
    rewrite <- Hw. destruct w; reflexivity.
  - inversion Hu as [|? ? Hb Hrest]; subst.
    assert (Hk : ~ In k (dict_keys done)).
    { unfold dict_keys in *. rewrite map_app in Hnd. simpl in Hnd.
      apply NoDup_remove_2 in Hnd. intros Hin. apply Hnd.
      apply in_or_app. auto. }
    destruct (update_position_runs (ct - Bot.last_update_time b) b w Hb)
      as (b' & w' & Hup & Hd).
    cbn [get_bots_loop advance_all].
    unfold bind at 1. unfold call_method. rewrite Hup. cbn [fst snd].
    rewrite Hd, Hw, dict_mem_middle, dict_set_present by exact Hk.
    assert (Hh : has_cells (k, b') = negb (is_empty (Bot.cells b')))
      by reflexivity.
    cbn [filter]. rewrite Hh.
    destruct (negb (is_empty (Bot.cells b'))) eqn:Hlive.
    + rewrite (IH (done ++ [(k, b')]) (acc ++ [bot_to_dict b'])).
      * rewrite advance_all_set_bots_data. cbn [fst snd].
        unfold dict_values. cbn [map snd]. rewrite <- !app_assoc.
        reflexivity.
      * simpl. rewrite <- app_assoc. reflexivity.
      * rewrite <- app_assoc. simpl.
        unfold dict_keys in *. rewrite map_app in *. exact Hnd.
      * exact Hrest.
    + unfold bind at 1. unfold get at 1. unfold bind at 1.
      cbn [bots_data set_bots_data].
      rewrite dict_mem_middle.
      unfold bind at 1. unfold lift_result at 1.
      rewrite dict_del_present by exact Hk.
      unfold modify at 1.
      rewrite (IH done acc).
      * rewrite !advance_all_set_bots_data. cbn [fst snd]. reflexivity.
      * reflexivity.
      * unfold dict_keys in *. rewrite map_app in *. simpl in Hnd.
        apply NoDup_remove_1 in Hnd. exact Hnd.
      * exact Hrest.
Qed.

Lemma advance_all_updates ct items : forall w,
  Forall updatable (dict_values items) ->
  Forall2 (fun kb kb' =>
             fst kb' = fst kb
             /\ exists wa wb,
                 update_position (ct - Bot.last_update_time (snd kb))
                                 (snd kb, wa)
                 = (Ok tt, (snd kb', wb)))
          items (fst (advance_all ct items w)).
Proof.
  induction items as [|[k b] rest IH]; intros w Hu; [constructor|].
  inversion Hu as [|? ? Hb Hrest]; subst.
  destruct (update_position_runs (ct - Bot.last_update_time b) b w Hb)
    as (b' & w' & Hup & _).
  cbn [advance_all fst snd]. rewrite Hup. cbn [fst snd].
  constructor; [|apply IH; exact Hrest].
  split; [reflexivity|]. exists w, w'. exact Hup.
Qed.

Lemma Forall2_keys {V} (P : string * V -> string * V -> Prop) l l' :
  (forall a b, P a b -> fst b = fst a) ->
  Forall2 P l l' -> dict_keys l' = dict_keys l.
Proof.
  intros HP. induction 1 as [|? ? ? ? H _ IH]; simpl; [reflexivity|].
  rewrite (HP _ _ H), IH. reflexivity.
Qed.

Lemma NoDup_keys_unique {V} (l : list (string * V)) k a b :
  NoDup (dict_keys l) -> In (k, a) l -> In (k, b) l -> a = b.
Proof.
  induction l as [|[k' v'] l IH]; simpl; intros Hnd Ha Hb; [tauto|].
  inversion Hnd as [|? ? Hn Hnd']; subst.
  assert (Hin : forall v, In (k', v) l -> In k' (dict_keys l)).
  { intros v H. apply (in_map fst) in H. exact H. }
  destruct Ha as [Ea|Ha], Hb as [Eb|Hb].
  - congruence.
  - injection Ea as -> _. exfalso. eauto.
  - injection Eb as -> _. exfalso. eauto.
  - eauto.
Qed.

(** C1: [get_bots_data] reads the clock once, runs [update_position] on
    every registered bot, in registry order, with [delta_time] the time read
    minus the bot's [last_update_time]; it returns the snapshots of exactly
    the updated bots that have a cell, and the registry afterwards holds
    exactly those bots: a bot left without cells is neither returned nor
    kept.  The registry is a dictionary (distinct keys) of bots on which
    [update_position] runs to its end. *)
Theorem list_and_advance (w : World) :
  NoDup (dict_keys (bots_data w)) ->
  Forall updatable (dict_values (bots_data w)) ->
  let current_time := clock w (clock_pos w) in
  let advanced := advance_all current_time (bots_data w) (snd (time_time w)) in
  let live := filter has_cells (fst advanced) in
  get_bots_data w
  = (Ok (BotList (map bot_to_dict (dict_values live)), 200%Z),
     set_bots_data (snd advanced) live)
  /\ Forall2 (fun kb kb' =>
                fst kb' = fst kb
                /\ exists wa wb,
                    update_position
                      (current_time - Bot.last_update_time (snd kb))
                      (snd kb, wa)
                    = (Ok tt, (snd kb', wb)))
             (bots_data w) (fst advanced)
  /\ forall k b', In (k, b') (fst advanced) ->
       (In (bot_to_dict b') (map bot_to_dict (dict_values live))
        <-> Bot.cells b' <> [])
       /\ (dict_mem k live = true <-> Bot.cells b' <> []).
Proof.
  intros Hnd Hu current_time advanced live.
  assert (HF := advance_all_updates current_time (bots_data w)
                                    (snd (time_time w)) Hu).
  fold advanced in HF.
  assert (Hlive : forall b : PyBot, negb (is_empty (Bot.cells b)) = true
                                    <-> Bot.cells b <> []).
  { intros b. destruct (Bot.cells b); simpl; split; congruence. }
  split; [|split; [exact HF|]].
  - unfold get_bots_data.
    unfold bind at 1. unfold time_time at 1.
    unfold bind at 1. unfold get at 1.
    unfold bind at 1.
    rewrite (get_bots_loop_spec _ _ [] []); [reflexivity | reflexivity | |].
    + exact Hnd.
    + exact Hu.
  - intros k b' Hin. split; split.
    + intros H. apply in_map_iff in H. destruct H as (b'' & E & H).
      apply in_map_iff in H. destruct H as ([k2 b2] & E2 & H).
      simpl in E2. subst b2. apply filter_In in H. destruct H as [_ H].
      unfold has_cells in H. simpl in H. apply Hlive in H.
      apply (f_equal bd_cells) in E. simpl in E.
      intros Hnil. rewrite Hnil in E. destruct (Bot.cells b''); [tauto|].
      discriminate.
    + intros H. apply in_map. apply in_map_iff. exists (k, b').
      split; [reflexivity|]. apply filter_In. split; [exact Hin|].
      apply Hlive. exact H.
    + intros H. apply dict_mem_In in H. apply in_map_iff in H.
      destruct H as ([k2 b2] & E & H). simpl in E. subst k2.
      apply filter_In in H. destruct H as [H Hc].
      assert (b2 = b').
      { apply (NoDup_keys_unique (fst advanced) k); auto.
        erewrite Forall2_keys; [exact Hnd | | exact HF].
        intros ? ? [E _]. exact E. }
      subst b2. apply Hlive. exact Hc.
    + intros H. apply dict_mem_In. apply in_map_iff. exists (k, b').
      split; [reflexivity|]. apply filter_In. split; [exact Hin|].
      apply Hlive. exact H.
Qed.

Lemma list_and_advance_witness :
  let current_time := clock world_poll (clock_pos world_poll) in
  let advanced :=
    advance_all current_time (bots_data world_poll)
                (snd (time_time world_poll)) in
  let live := filter has_cells (fst advanced) in
  get_bots_data world_poll
  = (Ok (BotList (map bot_to_dict (dict_values live)), 200%Z),
     set_bots_data (snd advanced) live)
  /\ Forall2 (fun kb kb' =>
                fst kb' = fst kb
                /\ exists wa wb,
                    update_position
                      (current_time - Bot.last_update_time (snd kb))
                      (snd kb, wa)
                    = (Ok tt, (snd kb', wb)))
             (bots_data world_poll) (fst advanced)
  /\ forall k b', In (k, b') (fst advanced) ->
       (In (bot_to_dict b') (map bot_to_dict (dict_values live))
        <-> Bot.cells b' <> [])
       /\ (dict_mem k live = true <-> Bot.cells b' <> []).
Proof.
  apply (list_and_advance world_poll).
  - repeat constructor; simpl; intuition discriminate.
  - repeat constructor.
    + exists 15. reflexivity.
    + simpl. pose proof (radius_to_mass_pos 15).
      pose proof BOT_INITIAL_MASS_pos. lra.
    + simpl. pose proof BOT_INITIAL_MASS_pos. lra.
Defined.


(** * Further properties of the code *)

(** ** The motion step in full *)

Lemma update_position_detail dt b w :
  Bot.cells b <> [] -> updatable b ->
  exists cs',
    update_position dt (b, w)
    = (Ok tt,
       (Bot.mk (Bot.id b) (Bot.name b) (Bot.color b) cs'
               (fst (next_target b w)) (snd (next_target b w))
               (clock w (clock_pos w)) (Bot.total_mass b),
        mkWorld (bots_data w) (uuid_source w) (uuid_pos w) (random_source w)
                (next_random_pos b w) (randint_source w) (randint_pos w)
                (clock w) (S (clock_pos w))))
    /\ Forall2 (cell_moved (fst (displacement b w dt)) (snd (displacement b w dt)))
               (Bot.cells b) cs'.
Proof.
  intros Hne [Hfl Htm].
  unfold displacement, heading, speed_of, next_target, next_random_pos,
    rerolls, reroll_index, target_distance.
  unfold update_position. monad_simpl.
  destruct (Bot.cells b) as [|c0 cs0] eqn:Hcells; [congruence|]. simpl.
  rewrite get_center_of_mass_eq. simpl.
  rewrite float_pow_half_sq_sum. simpl.
  rewrite <- Hcells in *.
  destruct (float_lt _ 50); simpl.
  - rewrite (bot_speed_value _ Htm). simpl.
    match goal with |- context [for_each (move_cell ?mx ?my) _] =>
      destruct (for_each_move_cell mx my _ Hfl) as (cs' & -> & HF) end.
    simpl. exists cs'. split; [reflexivity | exact HF].
  - destruct (float_lt _ 0.01); simpl;
      rewrite (bot_speed_value _ Htm); simpl;
      match goal with |- context [for_each (move_cell ?mx ?my) _] =>
        destruct (for_each_move_cell mx my _ Hfl) as (cs' & -> & HF) end;
      simpl; exists cs'; (split; [reflexivity | exact HF]).
Qed.

(** ** Rigid motion *)


Lemma moved_with_room dx dy r c :
  Cell.radius c = PyFloat r ->
  r <= Cell.x c + dx <= WORLD_WIDTH - r ->
  r <= Cell.y c + dy <= WORLD_HEIGHT - r ->
  Cell.x (moved dx dy r c) = Cell.x c + dx
  /\ Cell.y (moved dx dy r c) = Cell.y c + dy.
Proof.
  intros _ Hx Hy. unfold moved. cbn [Cell.x Cell.y].
  rewrite !float_max_Rmax, !float_min_Rmin.
  rewrite (Rmin_right _ (Cell.x c + dx)) by lra.
  rewrite (Rmin_right _ (Cell.y c + dy)) by lra.
  rewrite !Rmax_right by lra. auto.
Qed.



(** ** Target re-roll and bookkeeping of a step *)



(** X4: what a step records and what it leaves alone: the bot's
    [last_update_time] becomes the next reading of the clock, which is read
    once; identifier, name, colour, total mass and the number of cells are
    kept; the registry, the UUID stream and the integer stream are not
    touched, and at most three random floats are drawn. *)
Theorem step_bookkeeping (b : PyBot) (w : World) (delta_time : R) :
  Bot.cells b <> [] -> updatable b ->
  exists b' w',
    update_position delta_time (b, w) = (Ok tt, (b', w'))
    /\ Bot.last_update_time b' = clock w (clock_pos w)
    /\ clock_pos w' = S (clock_pos w)
    /\ Bot.id b' = Bot.id b /\ Bot.name b' = Bot.name b
    /\ Bot.color b' = Bot.color b /\ Bot.total_mass b' = Bot.total_mass b
    /\ List.length (Bot.cells b') = List.length (Bot.cells b)
    /\ bots_data w' = bots_data w
    /\ uuid_pos w' = uuid_pos w /\ randint_pos w' = randint_pos w
    /\ (random_pos w <= random_pos w' <= random_pos w + 3)%nat.
Proof.
  intros Hne Hu.
  destruct (update_position_detail delta_time b w Hne Hu) as (cs' & Heq & HF).
  eexists _, _. split; [exact Heq|].
  cbn [Bot.last_update_time clock_pos Bot.id Bot.name Bot.color Bot.total_mass
       Bot.cells bots_data uuid_pos randint_pos random_pos].
  repeat split; try reflexivity.
  - symmetry. eapply Forall2_length. exact HF.
  - unfold next_random_pos, reroll_index.
    destruct (rerolls b w), (float_lt (target_distance b) 50); lia.
  - unfold next_random_pos, reroll_index.
    destruct (rerolls b w), (float_lt (target_distance b) 50); lia.
Qed.

Lemma step_bookkeeping_witness :
  exists b' w',
    update_position 1 (small_bot, world0) = (Ok tt, (b', w'))
    /\ Bot.last_update_time b' = clock world0 (clock_pos world0)
    /\ clock_pos w' = S (clock_pos world0)
    /\ Bot.id b' = Bot.id small_bot /\ Bot.name b' = Bot.name small_bot
    /\ Bot.color b' = Bot.color small_bot
    /\ Bot.total_mass b' = Bot.total_mass small_bot
    /\ List.length (Bot.cells b') = List.length (Bot.cells small_bot)
    /\ bots_data w' = bots_data world0
    /\ uuid_pos w' = uuid_pos world0 /\ randint_pos w' = randint_pos world0
    /\ (random_pos world0 <= random_pos w' <= random_pos world0 + 3)%nat.
Proof.
  apply (step_bookkeeping small_bot world0 1).
  - discriminate.
  - apply one_cell_updatable; [lra | reflexivity].
Defined.

(** ** A step of no duration *)

Lemma moved_zero r c :
  Cell.radius c = PyFloat r ->
  r <= Cell.x c <= WORLD_WIDTH - r -> r <= Cell.y c <= WORLD_HEIGHT - r ->
  moved 0 0 r c = c.
Proof.
  intros Hr Hx Hy.
  assert (Hx0 : r <= Cell.x c + 0 <= WORLD_WIDTH - r) by lra.
  assert (Hy0 : r <= Cell.y c + 0 <= WORLD_HEIGHT - r) by lra.
  destruct (moved_with_room 0 0 r c Hr Hx0 Hy0) as [Ex Ey].
  destruct c as [i x y m rad]. unfold moved in *. cbn in *.
  rewrite Ex, Ey, !Rplus_0_r. reflexivity.
Qed.

(** X5: when no time has elapsed ([delta_time = 0]) a step leaves every cell
    that lies within the bounds exactly as it was. *)
Theorem zero_time_step (b : PyBot) (w : World) :
  Bot.cells b <> [] -> updatable b ->
  exists b' w',
    update_position 0 (b, w) = (Ok tt, (b', w'))
    /\ Forall2 (fun c c' => in_bounds c -> c' = c) (Bot.cells b) (Bot.cells b').
Proof.
  intros Hne Hu.
  destruct (update_position_detail 0 b w Hne Hu) as (cs' & Heq & HF).
  eexists _, _. split; [exact Heq|]. cbn [Bot.cells].
  eapply Forall2_impl; [|exact HF].
  intros c c' (r & Hr & ->) (r' & Hr' & Hx & Hy).
  assert (r' = r) by congruence. subst r'.
  unfold displacement. cbn [fst snd].
  replace (cos (heading b w) * speed_of b * 0 * 60) with 0 by ring.
  replace (sin (heading b w) * speed_of b * 0 * 60) with 0 by ring.
  apply moved_zero; assumption.
Qed.

Lemma zero_time_step_witness :
  exists b' w',
    update_position 0 (small_bot, world0) = (Ok tt, (b', w'))
    /\ Forall2 (fun c c' => in_bounds c -> c' = c)
               (Bot.cells small_bot) (Bot.cells b').
Proof.
  apply (zero_time_step small_bot world0).
  - discriminate.
  - apply one_cell_updatable; [lra | reflexivity].
Defined.

(** ** When a step fails *)

Lemma bot_speed_pole :
  bot_speed (- (BOT_INITIAL_MASS * 20)) = Raise ZeroDivisionError.
Proof.
  unfold bot_speed, float_div. pose proof BOT_INITIAL_MASS_pos as Hp.
  destruct (Req_dec_T (BOT_INITIAL_MASS * 20) 0) as [E|_]; [lra|].
  destruct (Req_dec_T (1 + - (BOT_INITIAL_MASS * 20) / (BOT_INITIAL_MASS * 20)) 0)
    as [_|H]; [reflexivity|].
  exfalso. apply H. field. lra.
Qed.

Lemma for_each_move_cell_complex mx my cs :
  ~ Forall float_radius cs ->
  fst (for_each (move_cell mx my) cs) = Raise TypeError.
Proof.
  induction cs as [|c cs IH]; intros Hn.
  - exfalso. apply Hn. constructor.
  - simpl. destruct (Cell.radius c) as [r|re im] eqn:Hr.
    + rewrite (move_cell_float _ _ _ _ Hr).
      assert (Hcs : ~ Forall float_radius cs).
      { intros H. apply Hn. constructor; [exists r; exact Hr | exact H]. }
      specialize (IH Hcs).
      destruct (for_each (move_cell mx my) cs) as [res cs']. exact IH.
    + unfold move_cell. monad_simpl. rewrite Hr. reflexivity.
Qed.

Lemma update_position_raise dt b w e :
  Bot.cells b <> [] ->
  bot_speed (Bot.total_mass b) = Raise e
  \/ ((exists s, bot_speed (Bot.total_mass b) = Ok s)
      /\ forall mx my, fst (for_each (move_cell mx my) (Bot.cells b)) = Raise e) ->
  fst (update_position dt (b, w)) = Raise e
  /\ Bot.last_update_time (fst (snd (update_position dt (b, w))))
     = Bot.last_update_time b
  /\ clock_pos (snd (snd (update_position dt (b, w)))) = clock_pos w.
Proof.
  intros Hne H.
  unfold update_position. monad_simpl.
  destruct (Bot.cells b) as [|c0 cs0] eqn:Hcells; [congruence|]. simpl.
  rewrite get_center_of_mass_eq. simpl.
  rewrite float_pow_half_sq_sum. simpl.
  rewrite <- Hcells in *.
  destruct H as [Hs | [[s Hs] Hf]].
  - destruct (float_lt _ 50); simpl; [|destruct (float_lt _ 0.01); simpl];
      rewrite Hs; simpl; auto.
  - destruct (float_lt _ 50); simpl; [|destruct (float_lt _ 0.01); simpl];
      rewrite Hs; simpl;
      match goal with |- context [for_each (move_cell ?mx ?my) _] =>
        specialize (Hf mx my);
        destruct (for_each (move_cell mx my) (Bot.cells b)) as [res cs']
      end; simpl in Hf; subst res; simpl; auto.
Qed.

(** A negative mass has a complex radius. *)
Lemma mass_to_radius_negative m :
  m < 0 -> mass_to_radius m = PyComplex 0 (sqrt (- (m / PI))).
Proof.
  intros Hm. unfold mass_to_radius, float_pow_half.
  destruct (Rle_dec 0 (m / PI)) as [H|_]; [|reflexivity].
  exfalso. pose proof PI_pos as Hp.
  assert (m / PI < 0); [|lra].
  unfold Rdiv. rewrite <- (Rmult_0_l (/ PI)).
  apply Rmult_lt_compat_r; [apply Rinv_0_lt_compat, Hp | exact Hm].
Qed.

Lemma shrunk_bot_on_the_map m : m < 0 -> on_the_map (shrunk_bot m).
Proof.
  intros Hm. unfold on_the_map, in_arena, center_of_mass, shrunk_bot, py_sum.
  cbn [Bot.cells Bot.total_mass Bot.target_x Bot.target_y map fold_left
       Cell.x Cell.y Cell.mass fst snd].
  destruct (Req_dec_T m 0) as [E|_]; [lra|].
  replace ((0 + 200 * m) / m) with 200 by (field; lra).
  replace ((0 + 300 * m) / m) with 300 by (field; lra).
  unfold WORLD_WIDTH, WORLD_HEIGHT. cbn [fst snd]. lra.
Qed.

Lemma shrunk_bot_complex m :
  m < 0 -> ~ Forall float_radius (Bot.cells (shrunk_bot m)).
Proof.
  intros Hm H. inversion H as [|? ? [r Hr] _]; subst.
  cbn [Cell.radius] in Hr. rewrite (mass_to_radius_negative m Hm) in Hr.
  discriminate Hr.
Qed.

(** X6: the two ways a step fails, on a bot with cells whose target and
    centre of mass lie in the arena.  At the total mass
    [-20 * BOT_INITIAL_MASS] the speed law divides by zero
    ([ZeroDivisionError]); at any other total mass a complex radius (that of
    a negative mass) makes the clamp fail ([TypeError]).  A failed step reads
    no clock and leaves [last_update_time] as it was. *)
Theorem update_position_errors (b : PyBot) (w : World) (delta_time : R) :
  Bot.cells b <> [] -> on_the_map b ->
  (Bot.total_mass b = - (BOT_INITIAL_MASS * 20) ->
   fst (update_position delta_time (b, w)) = Raise ZeroDivisionError
   /\ Bot.last_update_time (fst (snd (update_position delta_time (b, w))))
      = Bot.last_update_time b
   /\ clock_pos (snd (snd (update_position delta_time (b, w)))) = clock_pos w)
  /\ (Bot.total_mass b <> - (BOT_INITIAL_MASS * 20) ->
      ~ Forall float_radius (Bot.cells b) ->
      fst (update_position delta_time (b, w)) = Raise TypeError
      /\ Bot.last_update_time (fst (snd (update_position delta_time (b, w))))
         = Bot.last_update_time b
      /\ clock_pos (snd (snd (update_position delta_time (b, w))))
         = clock_pos w).
Proof.
  intros Hne _. split.
  - intros E. apply update_position_raise; [exact Hne|].
    left. rewrite E. apply bot_speed_pole.
  - intros Hm Hn. apply update_position_raise; [exact Hne|].
    right. split; [eexists; apply bot_speed_value; exact Hm|].
    intros mx my. apply for_each_move_cell_complex. exact Hn.
Qed.

Lemma update_position_errors_witness :
  fst (update_position 1 (shrunk_bot (- (BOT_INITIAL_MASS * 20)), world0))
  = Raise ZeroDivisionError
  /\ fst (update_position 1 (shrunk_bot (- BOT_INITIAL_MASS), world0))
     = Raise TypeError.
Proof.
  pose proof BOT_INITIAL_MASS_pos as Hp.
  assert (H20 : - (BOT_INITIAL_MASS * 20) < 0) by lra.
  assert (H1 : - BOT_INITIAL_MASS < 0) by lra.
  split.
  - apply (update_position_errors (shrunk_bot (- (BOT_INITIAL_MASS * 20)))
             world0 1);
      [discriminate | exact (shrunk_bot_on_the_map _ H20) | reflexivity].
  - apply (update_position_errors (shrunk_bot (- BOT_INITIAL_MASS)) world0 1).
    + discriminate.
    + exact (shrunk_bot_on_the_map _ H1).
    + cbn [shrunk_bot Bot.total_mass]. lra.
    + exact (shrunk_bot_complex _ H1).
Defined.

(** ** Heading *)







(** ** Construction in full *)


(** X8: with [random.random()] in [0, 1), a constructed bot has one cell of
    radius 15 placed between 100 and 2900 on both axes, hence within the
    bounds the clamp enforces, a target inside the arena, and the time of its
    construction as [last_update_time]; the registry is not touched. *)
Theorem construction_geometry (bot_id name color : option string) (w : World) :
  unit_random w ->
  exists b w' c,
    PyBot_init bot_id name color w = (Ok b, w')
    /\ Bot.cells b = [c]
    /\ Cell.radius c = PyFloat 15
    /\ 100 <= Cell.x c < WORLD_WIDTH - 100
    /\ 100 <= Cell.y c < WORLD_HEIGHT - 100
    /\ in_bounds c
    /\ 0 <= Bot.target_x b < WORLD_WIDTH
    /\ 0 <= Bot.target_y b < WORLD_HEIGHT
    /\ Bot.last_update_time b = clock w (clock_pos w)
    /\ bots_data w' = bots_data w.
Proof.
  intros Hu.
  destruct (PyBot_init_fields bot_id name color w)
    as (cid & w' & Heq & Hd & _).
  match type of Heq with
  | _ = (Ok ?b, _) =>
      match b with
      | context [[?c]] => exists b, w', c
      end
  end.
  split; [exact Heq|].
  cbn [Bot.cells Bot.target_x Bot.target_y Bot.last_update_time
       Cell.x Cell.y Cell.radius].
  pose proof (Hu (random_pos w)) as H0.
  pose proof (Hu (S (random_pos w))) as H1.
  pose proof (Hu (S (S (random_pos w)))) as H2.
  pose proof (Hu (S (S (S (random_pos w))))) as H3.
  unfold in_bounds. cbn [Cell.x Cell.y Cell.radius].
  rewrite initial_radius. unfold WORLD_WIDTH, WORLD_HEIGHT.
  repeat match goal with |- _ /\ _ => split end;
    try lra; try exact Hd; try reflexivity.
  exists 15. repeat split; lra.
Qed.

Lemma world0_unit_random : unit_random world0.
Proof. intros n. simpl. lra. Qed.

Lemma construction_geometry_witness :
  exists b w' c,
    PyBot_init None None None world0 = (Ok b, w')
    /\ Bot.cells b = [c]
    /\ Cell.radius c = PyFloat 15
    /\ 100 <= Cell.x c < WORLD_WIDTH - 100
    /\ 100 <= Cell.y c < WORLD_HEIGHT - 100
    /\ in_bounds c
    /\ 0 <= Bot.target_x b < WORLD_WIDTH
    /\ 0 <= Bot.target_y b < WORLD_HEIGHT
    /\ Bot.last_update_time b = clock world0 (clock_pos world0)
    /\ bots_data w' = bots_data world0.
Proof.
  apply (construction_geometry None None None world0).
  intros n. simpl. lra.
Defined.

(** ** Eviction by [recalculate_total_mass] *)

Lemma without_key_absent k d :
  ~ In k (dict_keys d) -> without_key k d = d.
Proof.
  induction d as [|[k' v'] d IH]; simpl; intros Hn; [reflexivity|].
  destruct (String.eqb_spec k k') as [->|Hne]; [tauto|].
  simpl. rewrite IH by tauto. reflexivity.
Qed.

Lemma dict_del_without_key k d :
  NoDup (dict_keys d) -> dict_mem k d = true ->
  dict_del k d = Ok (without_key k d).
Proof.
  intros Hnd Hm.
  destruct (dict_del_spec _ _ Hm) as (d1 & v & d2 & -> & -> & Hn).
  f_equal. unfold without_key. rewrite filter_app. simpl.
  rewrite String.eqb_refl. simpl.
  fold (without_key k d1). fold (without_key k d2).
  rewrite (without_key_absent k d1 Hn).
  rewrite without_key_absent; [reflexivity|].
  unfold dict_keys in Hnd. rewrite map_app in Hnd. simpl in Hnd.
  apply NoDup_remove_2 in Hnd. intros H. apply Hnd.
  apply in_or_app. right. exact H.
Qed.

(** X9: [recalculate_total_mass] never raises and stores the sum of the cell
    masses.  On a bot without cells it also removes from the registry the
    entry filed under the bot's identifier, whichever bot object that entry
    holds, and no other entry; on a bot with cells the registry is left as it
    is.  The oracles are not read. *)
Theorem recalculate_evicts (b : PyBot) (w : World) :
  NoDup (dict_keys (bots_data w)) ->
  exists w',
    recalculate_total_mass (b, w)
    = (Ok tt, (set_total_mass b (py_sum (map Cell.mass (Bot.cells b))), w'))
    /\ w' = set_bots_data w (bots_data w')
    /\ bots_data w'
       = (if is_empty (Bot.cells b) then without_key (Bot.id b) (bots_data w)
          else bots_data w)
    /\ (is_empty (Bot.cells b) = true ->
        dict_mem (Bot.id b) (bots_data w') = false).
Proof.
  intros Hnd. unfold recalculate_total_mass. monad_simpl.
  destruct (Bot.cells b) as [|c cs] eqn:Hc; simpl.
  - destruct (dict_mem (Bot.id b) (bots_data w)) eqn:Hm.
    + rewrite (dict_del_without_key _ _ Hnd Hm).
      eexists. split; [reflexivity|]. simpl. split; [reflexivity|].
      split; [reflexivity|]. intros _.
      apply dict_mem_false. unfold without_key, dict_keys.
      intros H. apply in_map_iff in H. destruct H as ([k v] & E & H).
      apply filter_In in H. destruct H as [_ H]. simpl in *. subst k.
      rewrite String.eqb_refl in H. discriminate.
    + exists w. split; [reflexivity|].
      apply dict_mem_false in Hm as Hn.
      rewrite (without_key_absent _ _ Hn).
      split; [destruct w; reflexivity|]. auto.
  - exists w. split; [reflexivity|].
    split; [destruct w; reflexivity|]. split; [reflexivity|]. discriminate.
Qed.

Lemma recalculate_evicts_witness :
  exists w',
    recalculate_total_mass (empty_bot, world_poll)
    = (Ok tt, (set_total_mass empty_bot
                 (py_sum (map Cell.mass (Bot.cells empty_bot))), w'))
    /\ w' = set_bots_data world_poll (bots_data w')
    /\ bots_data w'
       = (if is_empty (Bot.cells empty_bot)
          then without_key (Bot.id empty_bot) (bots_data world_poll)
          else bots_data world_poll)
    /\ (is_empty (Bot.cells empty_bot) = true ->
        dict_mem (Bot.id empty_bot) (bots_data w') = false).
Proof.
  apply (recalculate_evicts empty_bot world_poll).
  repeat constructor; simpl; intuition discriminate.
Defined.

(** ** The server invariant *)

Lemma sound_entry_updatable kb :
  sound_entry kb -> updatable (snd kb) /\ Bot.cells (snd kb) <> [].
Proof.
  intros (_ & c & Hc & _ & Hr & Ht & _). split; [split|].
  - rewrite Hc. constructor; [exists 15; exact Hr | constructor].
  - rewrite Ht. pose proof BOT_INITIAL_MASS_pos. lra.
  - rewrite Hc. discriminate.
Qed.

Lemma moved_in_bounds dx dy c :
  Cell.radius c = PyFloat 15 -> in_bounds (moved dx dy 15 c).
Proof.
  intros Hr. exists 15. unfold moved. cbn [Cell.x Cell.y Cell.radius].
  split; [exact Hr|].
  split; (split; [apply clamp_lower | apply clamp_upper]);
    unfold WORLD_WIDTH, WORLD_HEIGHT; lra.
Qed.

Lemma update_position_sound dt k b w :
  sound_entry (k, b) ->
  exists b' w',
    update_position dt (b, w) = (Ok tt, (b', w'))
    /\ sound_entry (k, b')
    /\ random_source w' = random_source w
    /\ bots_data w' = bots_data w.
Proof.
  intros Hs. destruct (sound_entry_updatable _ Hs) as [Hu Hne].
  destruct Hs as (Hid & c & Hc & Hm & Hr & Ht & _). simpl in *.
  destruct (update_position_detail dt b w Hne Hu) as (cs' & Heq & HF).
  eexists _, _. split; [exact Heq|].
  split; [|split; reflexivity].
  rewrite Hc in HF. inversion HF as [|? c' ? ? Hcm Hnil]; subst.
  inversion Hnil; subst.
  destruct Hcm as (r & Hr' & ->).
  assert (r = 15) by congruence. subst r.
  split; [reflexivity|]. exists (moved (fst (displacement b w dt))
                                     (snd (displacement b w dt)) 15 c).
  cbn [snd Bot.cells Bot.total_mass]. repeat split; auto.
  apply moved_in_bounds. exact Hr.
Qed.

Lemma create_bot_instance_sound (w : World) :
  unit_random w ->
  exists b w',
    create_bot_instance w = (Ok b, w')
    /\ sound_entry (Bot.id b, b)
    /\ random_source w' = random_source w
    /\ bots_data w' = bots_data w.
Proof.
  intros Hu. unfold create_bot_instance.
  destruct (PyBot_init_fields None None None w)
    as (cid & w' & Heq & Hd & Hrs & _).
  eexists _, w'. split; [exact Heq|].
  split; [|split; assumption].
  split; [reflexivity|]. eexists. cbn [snd Bot.cells Bot.total_mass].
  split; [reflexivity|]. cbn [Cell.mass Cell.radius].
  split; [reflexivity|]. split; [apply initial_radius|].
  split; [unfold py_sum; simpl; apply Rplus_0_l|].
  exists 15. cbn [Cell.x Cell.y Cell.radius].
  split; [apply initial_radius|].
  pose proof (Hu (S (S (random_pos w)))) as H2.
  pose proof (Hu (S (S (S (random_pos w))))) as H3.
  unfold WORLD_WIDTH, WORLD_HEIGHT. split; lra.
Qed.

Lemma dict_set_inv k (b : PyBot) d :
  NoDup (dict_keys d) -> Forall sound_entry d -> sound_entry (k, b) ->
  NoDup (dict_keys (dict_set k b d)) /\ Forall sound_entry (dict_set k b d).
Proof.
  intros Hnd Hf Hs. split.
  - rewrite dict_keys_set. destruct (dict_mem k d) eqn:Hm; [exact Hnd|].
    apply dict_mem_false in Hm.
    apply NoDup_app; [exact Hnd | repeat constructor; simpl; tauto |].
    intros a Ha [<-|[]]. exact (Hm Ha).
  - induction Hf as [|[k' v'] d Hh Ht IH]; simpl.
    + constructor; [exact Hs | constructor].
    + inversion Hnd; subst.
      destruct (String.eqb_spec k k') as [<-|Hne];
        constructor; auto.
Qed.

Lemma remove_middle_inv (d1 d2 : list (string * PyBot)) kb :
  NoDup (dict_keys (d1 ++ kb :: d2)) -> Forall sound_entry (d1 ++ kb :: d2) ->
  NoDup (dict_keys (d1 ++ d2)) /\ Forall sound_entry (d1 ++ d2).
Proof.
  intros Hnd Hf. split.
  - unfold dict_keys in *. rewrite map_app in *. simpl in Hnd.
    apply NoDup_remove_1 in Hnd. exact Hnd.
  - apply Forall_app in Hf. destruct Hf as [H1 H2]. inversion H2; subst.
    apply Forall_app. split; assumption.
Qed.

Lemma spawn_loop_inv n : forall w,
  server_inv w ->
  exists w',
    for_range n
      (bot <- create_bot_instance ;;
       modify (fun w => set_bots_data w (dict_set (Bot.id bot) bot (bots_data w))))
      w = (Ok tt, w')
    /\ server_inv w'.
Proof.
  induction n as [|n IH]; intros w Hinv.
  - exists w. split; [reflexivity | exact Hinv].
  - destruct Hinv as (Hu & Hnd & Hf).
    destruct (create_bot_instance_sound w Hu) as (b & w1 & Hc & Hs & Hrs & Hd).
    destruct (dict_set_inv (Bot.id b) b (bots_data w1)) as [Hnd' Hf'];
      [rewrite Hd; exact Hnd | rewrite Hd; exact Hf | exact Hs |].
    destruct (IH (set_bots_data w1 (dict_set (Bot.id b) b (bots_data w1))))
      as (w' & Hloop & Hinv').
    { split; [|split]; [|exact Hnd' | exact Hf'].
      intros i. simpl. rewrite Hrs. apply Hu. }
    exists w'. cbn [for_range]. unfold bind at 1. unfold bind at 1.
    rewrite Hc. unfold modify at 1. rewrite Hloop. split; [reflexivity|].
    exact Hinv'.
Qed.

Lemma reset_all_bots_inv (count_arg : option Z) (w : World) :
  unit_random w ->
  exists resp w',
    reset_all_bots count_arg w = (Ok resp, w')
    /\ server_inv w' /\ status resp = 200%Z.
Proof.
  intros Hu.
  destruct (spawn_loop_inv
              (Z.to_nat match count_arg with Some n => n | None => 10%Z end)
              (set_bots_data w []))
    as (w' & Hloop & Hinv).
  { split; [exact Hu|]. split; constructor. }
  unfold reset_all_bots.
  unfold bind at 1. unfold modify at 1. unfold bind at 1. rewrite Hloop.
  unfold bind, get, ret. eexists _, w'. split; [reflexivity|].
  split; [exact Hinv | reflexivity].
Qed.

Lemma bot_was_eaten_inv (bot_id : string) (w : World) :
  server_inv w ->
  exists resp w',
    bot_was_eaten bot_id w = (Ok resp, w')
    /\ server_inv w' /\ (status resp = 200%Z \/ status resp = 404%Z).
Proof.
  intros Hinv.
  destruct (dict_mem bot_id (bots_data w)) eqn:Hm.
  - destruct Hinv as (Hu & Hnd & Hf).
    destruct (dict_del_spec _ _ Hm) as (d1 & old & d2 & Hd & Hdel & Hn).
    rewrite Hd in Hnd, Hf.
    destruct (remove_middle_inv _ _ _ Hnd Hf) as [Hnd1 Hf1].
    destruct (create_bot_instance_sound (set_bots_data w (d1 ++ d2)) Hu)
      as (b & w1 & Hc & Hs & Hrs & Hbd).
    simpl in Hrs, Hbd.
    destruct (dict_set_inv (Bot.id b) b (d1 ++ d2) Hnd1 Hf1 Hs) as [Hnd2 Hf2].
    eexists _, _.
    cbv beta iota delta [bot_was_eaten bind get lift_result modify ret jsonify].
    rewrite Hm. cbv beta iota. rewrite Hdel. cbv beta iota.
    rewrite Hc. cbv beta iota.
    split; [reflexivity|]. split; [|left; reflexivity].
    split; [|split].
    + intros i. cbn [random_source set_bots_data]. rewrite Hrs. apply Hu.
    + cbn [bots_data set_bots_data]. rewrite Hbd. exact Hnd2.
    + cbn [bots_data set_bots_data]. rewrite Hbd. exact Hf2.
  - rewrite (bot_was_eaten_absent _ _ Hm).
    eexists _, w. split; [reflexivity|]. split; [exact Hinv|].
    right. reflexivity.
Qed.

Lemma advance_all_sound ct items : forall w,
  Forall sound_entry items ->
  Forall sound_entry (fst (advance_all ct items w))
  /\ dict_keys (fst (advance_all ct items w)) = dict_keys items
  /\ filter has_cells (fst (advance_all ct items w))
     = fst (advance_all ct items w)
  /\ random_source (snd (advance_all ct items w)) = random_source w.
Proof.
  induction items as [|[k b] rest IH]; intros w Hf.
  - simpl. repeat split. constructor.
  - inversion Hf as [|? ? Hs Hrest]; subst.
    destruct (update_position_sound (ct - Bot.last_update_time b) k b w Hs)
      as (b' & w' & Hup & Hs' & Hrs & _).
    cbn [advance_all]. rewrite Hup. cbn [fst snd].
    destruct (IH w' Hrest) as (H1 & H2 & H3 & H4).
    split; [constructor; assumption|].
    split; [simpl; rewrite H2; reflexivity|].
    split; [|congruence].
    cbn [filter]. unfold has_cells at 1. cbn [snd].
    destruct Hs' as (_ & c & Hc & _). simpl in Hc. rewrite Hc. simpl.
    rewrite H3. reflexivity.
Qed.

Lemma get_bots_data_inv (w : World) :
  server_inv w ->
  exists bots w',
    get_bots_data w = (Ok (BotList bots, 200%Z), w')
    /\ server_inv w'
    /\ map bd_id bots = dict_keys (bots_data w)
    /\ dict_keys (bots_data w') = dict_keys (bots_data w)
    /\ bots = map bot_to_dict (dict_values (bots_data w')).
Proof.
  intros (Hu & Hnd & Hf).
  assert (Hupd : Forall updatable (dict_values (bots_data w))).
  { unfold dict_values. apply Forall_map.
    eapply Forall_impl; [|exact Hf]. intros kb H.
    apply sound_entry_updatable. exact H. }
  eexists _, _. unfold get_bots_data.
  unfold bind at 1. unfold time_time at 1.
  unfold bind at 1. unfold get at 1.
  unfold bind at 1.
  rewrite (get_bots_loop_spec _ _ [] []); [| reflexivity | exact Hnd | exact Hupd].
  unfold ret, jsonify. split; [reflexivity|].
  match goal with
  | |- context [advance_all ?ct ?items ?W] =>
      destruct (advance_all_sound ct items W Hf) as (H1 & H2 & H3 & H4);
      remember (advance_all ct items W) as adv eqn:Eadv
  end.
  clear Eadv.
  cbn [bots_data random_source] in H2, H4.
  rewrite !app_nil_l, H3.
  split; [|split; [|split]].
  - split; [|split].
    + intros i. cbn [set_bots_data random_source]. rewrite H4. apply Hu.
    + cbn [bots_data set_bots_data]. rewrite H2. exact Hnd.
    + exact H1.
  - rewrite <- H2. unfold dict_values, dict_keys. rewrite !map_map.
    apply map_ext_in. intros kb Hin.
    rewrite Forall_forall in H1. destruct (H1 kb Hin) as [E _]. exact E.
  - cbn [bots_data set_bots_data]. exact H2.
  - reflexivity.
Qed.

Lemma health_check_inv (w : World) :
  health_check w
  = (Ok (Health "healthy" (List.length (bots_data w)), 200%Z), w).
Proof. reflexivity. Qed.

Lemma handle_inv (r : request) (w : World) :
  server_inv w ->
  exists resp w',
    handle r w = (Ok resp, w')
    /\ server_inv w' /\ (status resp = 200%Z \/ status resp = 404%Z).
Proof.
  intros Hinv. destruct r as [| |count_arg|bot_id]; cbn [handle].
  - exists (Health "healthy" (List.length (bots_data w)), 200%Z), w.
    split; [apply health_check_inv|].
    split; [exact Hinv | left; reflexivity].
  - destruct (get_bots_data_inv w Hinv) as (bots & w' & Heq & Hinv' & _).
    eexists _, w'. split; [exact Heq|]. split; [exact Hinv' | left; reflexivity].
  - destruct Hinv as (Hu & _).
    destruct (reset_all_bots_inv count_arg w Hu) as (resp & w' & Heq & Hinv' & Hs).
    exists resp, w'. auto.
  - apply bot_was_eaten_inv. exact Hinv.
Qed.

(** X10: the server keeps its registry sound and never raises: from a state
    where every entry is filed under the bot's own identifier and holds one
    cell of the initial mass, radius 15, within the bounds (with distinct
    keys and [random.random()] in [0, 1)), every sequence of requests is
    answered, each with status 200 or 404, and ends in such a state. *)
Theorem serve_sound (rs : list request) (w : World) :
  server_inv w ->
  exists resps w',
    serve rs w = (Ok resps, w')
    /\ server_inv w'
    /\ List.length resps = List.length rs
    /\ Forall (fun r => status r = 200%Z \/ status r = 404%Z) resps.
Proof.
  revert w. induction rs as [|r rs IH]; intros w Hinv.
  - exists [], w. split; [reflexivity|]. split; [exact Hinv|].
    split; [reflexivity | constructor].
  - destruct (handle_inv r w Hinv) as (resp & w1 & Heq & Hinv1 & Hs).
    destruct (IH w1 Hinv1) as (resps & w' & Heqs & Hinv' & Hl & Hall).
    exists (resp :: resps), w'. cbn [serve].
    unfold bind at 1. rewrite Heq. unfold bind at 1. rewrite Heqs.
    unfold ret. split; [reflexivity|]. split; [exact Hinv'|].
    split; [simpl; congruence | constructor; assumption].
Qed.

Lemma world_one_inv : server_inv world_one.
Proof.
  split; [exact world0_unit_random|]. split.
  - repeat constructor. simpl. tauto.
  - constructor; [|constructor]. split; [reflexivity|].
    exists small_cell. repeat split.
    exists 15. unfold WORLD_WIDTH, WORLD_HEIGHT. simpl.
    split; [reflexivity|]. lra.
Qed.

Lemma serve_sound_witness :
  exists resps w',
    serve [GetBots; BotEaten "pybot_3f2a9c1e"; HealthCheck] world_one
    = (Ok resps, w')
    /\ server_inv w'
    /\ List.length resps = 3%nat
    /\ Forall (fun r => status r = 200%Z \/ status r = 404%Z) resps.
Proof.
  apply (serve_sound [GetBots; BotEaten "pybot_3f2a9c1e"; HealthCheck] world_one).
  exact world_one_inv.
Defined.

(** ** Start-up, polling and health *)

(** X11: the start-up block, run on the empty registry of a fresh process,
    registers ten constructed bots: the registry is sound afterwards and
    holds at most ten bots, exactly ten, in construction order, when the ten
    generated identifiers are pairwise distinct. *)
Theorem startup_registers_ten (w : World) :
  unit_random w -> bots_data w = [] ->
  exists w',
    main w = (Ok tt, w')
    /\ server_inv w'
    /\ (List.length (bots_data w') <= 10)%nat
    /\ (NoDup (map (nth_bot_id w) (seq 0 10)) ->
        dict_keys (bots_data w') = map (nth_bot_id w) (seq 0 10)
        /\ List.length (bots_data w') = 10%nat).
Proof.
  intros Hu Hd.
  assert (Hinv : server_inv w).
  { split; [exact Hu|]. rewrite Hd. split; constructor. }
  destruct (spawn_loop_inv 10 w Hinv) as (w' & Heq & Hinv').
  destruct (spawn_loop 10 w) as (w2 & Heq2 & _ & _ & Hk & _).
  unfold main. rewrite Heq in Heq2. injection Heq2 as <-.
  exists w'. split; [exact Heq|]. split; [exact Hinv'|].
  rewrite Hd in Hk. simpl dict_keys in Hk.
  assert (Hlen : List.length (bots_data w') = List.length (dict_keys (bots_data w')))
    by (unfold dict_keys; rewrite length_map; reflexivity).
  split.
  - rewrite Hlen, Hk.
    pose proof (add_keys_length (map (nth_bot_id w) (seq 0 10)) []) as H.
    rewrite length_map, length_seq in H. exact H.
  - intros Hnd. rewrite Hlen, Hk.
    rewrite (add_keys_fresh _ [] Hnd). rewrite app_nil_l.
    split; [reflexivity|]. rewrite length_map, length_seq. reflexivity.
Qed.

Lemma numbered_ids_distinct :
  NoDup (map (nth_bot_id world_numbered) (seq 0 10)).
Proof.
  unfold nth_bot_id, world_numbered, numbered_uuid, str_prefix.
  cbn -[In].
  repeat (constructor; [cbn; intuition discriminate|]).
  constructor.
Qed.

Lemma startup_registers_ten_witness :
  exists w',
    main world_numbered = (Ok tt, w')
    /\ server_inv w'
    /\ (List.length (bots_data w') <= 10)%nat
    /\ dict_keys (bots_data w') = map (nth_bot_id world_numbered) (seq 0 10)
    /\ List.length (bots_data w') = 10%nat.
Proof.
  destruct (startup_registers_ten world_numbered)
    as (w' & Hm & Hi & Hl & Hk).
  - intros n. cbn [world_numbered random_source]. lra.
  - reflexivity.
  - exists w'. split; [exact Hm|]. split; [exact Hi|]. split; [exact Hl|].
    apply Hk. exact numbered_ids_distinct.
Defined.

Lemma advance_all_length ct items : forall w,
  List.length (fst (advance_all ct items w)) = List.length items.
Proof.
  induction items as [|[k b] rest IH]; intros w; [reflexivity|].
  cbn [advance_all fst]. simpl. rewrite IH. reflexivity.
Qed.

Lemma get_bots_data_eq (w : World) :
  NoDup (dict_keys (bots_data w)) ->
  Forall updatable (dict_values (bots_data w)) ->
  get_bots_data w
  = (Ok (BotList
           (map bot_to_dict
              (dict_values
                 (filter has_cells
                    (fst (advance_all (clock w (clock_pos w)) (bots_data w)
                                      (snd (time_time w))))))), 200%Z),
     set_bots_data
       (snd (advance_all (clock w (clock_pos w)) (bots_data w)
                         (snd (time_time w))))
       (filter has_cells
          (fst (advance_all (clock w (clock_pos w)) (bots_data w)
                            (snd (time_time w)))))).
Proof.
  intros Hnd Hupd. unfold get_bots_data.
  unfold bind at 1. unfold time_time at 1.
  unfold bind at 1. unfold get at 1.
  unfold bind at 1.
  rewrite (get_bots_loop_spec _ _ [] []); [reflexivity | reflexivity | |].
  - exact Hnd.
  - exact Hupd.
Qed.

(** X12: a health check that follows a poll reports as [bot_count] the
    number of snapshots the poll returned, which is the size of the registry
    after the poll and at most its size before. *)
Theorem health_after_poll (w : World) :
  NoDup (dict_keys (bots_data w)) ->
  Forall updatable (dict_values (bots_data w)) ->
  exists bots w',
    poll_then_health w
    = (Ok ((BotList bots, 200%Z),
           (Health "healthy" (List.length bots), 200%Z)), w')
    /\ List.length bots = List.length (bots_data w')
    /\ (List.length bots <= List.length (bots_data w))%nat.
Proof.
  intros Hnd Hupd.
  pose proof (get_bots_data_eq w Hnd Hupd) as Heq.
  remember (advance_all (clock w (clock_pos w)) (bots_data w)
                        (snd (time_time w))) as adv eqn:Eadv.
  assert (Hlen : List.length (fst adv) = List.length (bots_data w))
    by (rewrite Eadv; apply advance_all_length).
  clear Eadv.
  exists (map bot_to_dict (dict_values (filter has_cells (fst adv)))),
         (set_bots_data (snd adv) (filter has_cells (fst adv))).
  assert (Hn : List.length
                 (map bot_to_dict (dict_values (filter has_cells (fst adv))))
               = List.length (filter has_cells (fst adv))).
  { unfold dict_values. rewrite !length_map. reflexivity. }
  split; [|split].
  - unfold poll_then_health. unfold bind at 1. rewrite Heq.
    unfold bind at 1. rewrite health_check_inv. unfold ret.
    cbn [bots_data set_bots_data]. rewrite Hn. reflexivity.
  - rewrite Hn. reflexivity.
  - rewrite Hn, <- Hlen. apply filter_length_le.
Qed.

Lemma health_after_poll_witness :
  exists bots w',
    poll_then_health world_poll
    = (Ok ((BotList bots, 200%Z),
           (Health "healthy" (List.length bots), 200%Z)), w')
    /\ List.length bots = List.length (bots_data w')
    /\ (List.length bots <= List.length (bots_data world_poll))%nat.
Proof.
  apply (health_after_poll world_poll).
  - repeat constructor; simpl; intuition discriminate.
  - repeat constructor.
    + exists 15. reflexivity.
    + simpl. pose proof (radius_to_mass_pos 15).
      pose proof BOT_INITIAL_MASS_pos. lra.
    + simpl. pose proof BOT_INITIAL_MASS_pos. lra.
Defined.

(** X13: polling a sound registry evicts nobody: the poll returns one
    snapshot per registered bot, in registry order and under the registered
    identifiers, each with a single cell of the initial mass; the keys of the
    registry are the same afterwards and the registry is sound again. *)
Theorem poll_keeps_population (w : World) :
  server_inv w ->
  exists bots w',
    get_bots_data w = (Ok (BotList bots, 200%Z), w')
    /\ map bd_id bots = dict_keys (bots_data w)
    /\ dict_keys (bots_data w') = dict_keys (bots_data w)
    /\ server_inv w'
    /\ Forall (fun d => exists c, bd_cells d = [c]
                                  /\ cd_mass c = BOT_INITIAL_MASS
                                  /\ cd_radius c = PyFloat 15
                                  /\ bd_totalMass d = BOT_INITIAL_MASS
                                  /\ bd_isPythonBot d = true)
              bots.
Proof.
  intros Hinv.
  destruct (get_bots_data_inv w Hinv)
    as (bots & w' & Heq & Hinv' & Hids & Hkeys & Hbots).
  exists bots, w'. repeat match goal with |- _ /\ _ => split end; auto.
  rewrite Hbots. unfold dict_values. rewrite map_map.
  apply Forall_map. destruct Hinv' as (_ & _ & Hf).
  eapply Forall_impl; [|exact Hf].
  intros kb (_ & c & Hc & Hm & Hr & Ht & _).
  exists (cell_to_dict c). unfold bot_to_dict. cbn [bd_cells bd_totalMass bd_isPythonBot].
  rewrite Hc. simpl. auto.
Qed.

Lemma poll_keeps_population_witness :
  exists bots w',
    get_bots_data world_one = (Ok (BotList bots, 200%Z), w')
    /\ map bd_id bots = dict_keys (bots_data world_one)
    /\ dict_keys (bots_data w') = dict_keys (bots_data world_one)
    /\ server_inv w'
    /\ Forall (fun d => exists c, bd_cells d = [c]
                                  /\ cd_mass c = BOT_INITIAL_MASS
                                  /\ cd_radius c = PyFloat 15
                                  /\ bd_totalMass d = BOT_INITIAL_MASS
                                  /\ bd_isPythonBot d = true)
              bots.
Proof. apply (poll_keeps_population world_one). exact world_one_inv. Defined.

(** ** The generated colour *)

Lemma of_pos_hex k : forall p rest,
  (Z.pos p < 16 ^ Z.of_nat k)%Z ->
  all_hex rest = true ->
  (String.length rest < String.length (HexString.Raw.of_pos p rest)
   <= String.length rest + k)%nat
  /\ all_hex (HexString.Raw.of_pos p rest) = true.
Proof.
  induction k as [|k IH]; intros p rest Hp Hr.
  - simpl in Hp. lia.
  - rewrite Nat2Z.inj_succ, Z.pow_succ_r in Hp by lia.
    assert (HM : (0 < 16 ^ Z.of_nat k)%Z) by (apply Z.pow_pos_nonneg; lia).
    do 4 (try destruct p as [p|p|]);
      try (cbn [HexString.Raw.of_pos];
           match goal with
           | |- context [HexString.Raw.of_pos ?q (String ?c rest)] =>
               destruct (IH q (String c rest)) as [[H1 H2] H3];
               [lia | cbn [all_hex]; rewrite Hr; reflexivity |];
               cbn [String.length] in H1, H2; split; [lia | exact H3]
           end);
      (cbn [HexString.Raw.of_pos String.length all_hex]; rewrite Hr;
       split; [lia | reflexivity]).
Qed.

Lemma zero_pad_spec n s :
  String.length (zero_pad n s) = (n + String.length s)%nat
  /\ (all_hex s = true -> all_hex (zero_pad n s) = true).
Proof.
  induction n as [|n [IH1 IH2]]; simpl; [auto|].
  split; [rewrite IH1; reflexivity | exact IH2].
Qed.

Lemma format_06x_spec n :
  (0 <= n < 16777216)%Z ->
  String.length (format_06x n) = 6%nat /\ all_hex (format_06x n) = true.
Proof.
  intros Hn. unfold format_06x.
  destruct n as [|p|p]; try lia.
  - split; reflexivity.
  - destruct (of_pos_hex 6 p EmptyString) as [[H1 H2] H3];
      [exact (proj2 Hn) | reflexivity |].
    cbn [String.length] in H1, H2.
    destruct (zero_pad_spec
                (6 - String.length (HexString.Raw.of_pos p EmptyString))
                (HexString.Raw.of_pos p EmptyString)) as [L1 L2].
    split; [rewrite L1; lia | apply L2; exact H3].
Qed.

(** X14: defaults of the constructor.  A non-empty argument is used as it
    is and nothing is drawn for it; [None] or the empty string is replaced:
    the identifier by ["pybot_"] and the first eight characters of one UUID,
    the name by ["PyBot "] and the last three characters of the identifier in
    use, the colour by ["#"] and exactly six lower-case hexadecimal digits
    made from one integer draw.  One more UUID is always read for the cell. *)
Theorem constructor_defaults (bot_id name color : option string) (w : World) :
  exists b w',
    PyBot_init bot_id name color w = (Ok b, w')
    /\ Bot.id b = match bot_id with
                  | Some (String a s) => String a s
                  | _ => ("pybot_" ++ str_prefix 8 (uuid_source w (uuid_pos w)))%string
                  end
    /\ uuid_pos w' = match bot_id with
                     | Some (String _ _) => S (uuid_pos w)
                     | _ => S (S (uuid_pos w))
                     end
    /\ Bot.name b = match name with
                    | Some (String a s) => String a s
                    | _ => ("PyBot " ++ str_suffix 3 (Bot.id b))%string
                    end
    /\ match color with
       | Some (String a s) =>
           Bot.color b = String a s /\ randint_pos w' = randint_pos w
       | _ =>
           (exists digits, Bot.color b = String "#" digits
                           /\ String.length digits = 6%nat
                           /\ all_hex digits = true)
           /\ randint_pos w' = S (randint_pos w)
       end.
Proof.
  destruct (PyBot_init_fields bot_id name color w)
    as (cid & w' & Heq & _ & _ & _ & _ & _ & _ & Hri & Hu).
  eexists _, w'. split; [exact Heq|].
  cbn [Bot.id Bot.name Bot.color].
  split; [reflexivity|]. split; [exact Hu|]. split; [reflexivity|].
  assert (Hgen : exists digits, generated_color w = String "#" digits
                                /\ String.length digits = 6%nat
                                /\ all_hex digits = true).
  { unfold generated_color. eexists. split; [reflexivity|].
    apply format_06x_spec.
    pose proof (Z.mod_pos_bound
                  (Z.of_N (randint_source w (randint_pos w)))
                  (0xFFFFFF - 0 + 1)) as H.
    lia. }
  unfold chosen_color.
  destruct color as [[|a s]|]; split; auto.
Qed.

(** ** Repeated elimination *)

Lemma dict_mem_set {V} k k' (v : V) d :
  dict_mem k (dict_set k' v d) = (String.eqb k k' || dict_mem k d)%bool.
Proof.
  induction d as [|[k2 v2] d IH]; simpl.
  - destruct (String.eqb k k'); reflexivity.
  - destruct (String.eqb_spec k' k2) as [->|Hne]; simpl.
    + destruct (String.eqb k k2); reflexivity.
    + rewrite IH. destruct (String.eqb_spec k k2) as [->|Hne2].
      * rewrite orb_true_r. reflexivity.
      * reflexivity.
Qed.

(** X15: reporting the same bot as eaten twice.  The first report of a
    registered identifier answers 200; the second answers 404, so that no
    second bot is replaced, unless the replacement was given that very
    identifier, in which case it answers 200 again. *)
Theorem eaten_twice_status (bot_id : string) (w : World) :
  NoDup (dict_keys (bots_data w)) ->
  dict_mem bot_id (bots_data w) = true ->
  exists r1 r2 w',
    eaten_twice bot_id w = (Ok (r1, r2), w')
    /\ status r1 = 200%Z
    /\ status r2 = (if String.eqb bot_id (nth_bot_id w 0) then 200 else 404)%Z.
Proof.
  intros Hnd Hm.
  destruct (bot_was_eaten_present _ _ Hm)
    as (d1 & old & d2 & b & w1 & Hd & Hn & Heq & _ & Hid & Hbd).
  assert (Hrest : dict_mem bot_id (d1 ++ d2) = false).
  { apply dict_mem_false. rewrite Hd in Hnd.
    unfold dict_keys in *. rewrite map_app in *. simpl in Hnd.
    apply NoDup_remove_2 in Hnd. exact Hnd. }
  assert (Hm1 : dict_mem bot_id (bots_data w1)
                = String.eqb bot_id (nth_bot_id w 0)).
  { rewrite Hbd, dict_mem_set, Hrest, Hid, orb_false_r. reflexivity. }
  unfold eaten_twice. unfold bind at 1. rewrite Heq.
  destruct (String.eqb bot_id (nth_bot_id w 0)) eqn:E.
  - destruct (bot_was_eaten_present _ _ Hm1)
      as (e1 & old2 & e2 & b2 & w2 & _ & _ & Heq2 & _).
    unfold bind at 1. rewrite Heq2. unfold ret.
    eexists _, _, _. split; [reflexivity|]. split; reflexivity.
  - unfold bind at 1. rewrite (bot_was_eaten_absent _ _ Hm1). unfold ret.
    eexists _, _, _. split; [reflexivity|]. split; reflexivity.
Qed.

Lemma eaten_twice_status_witness :
  exists r1 r2 w',
    eaten_twice "pybot_aaaaaaaa" world_two = (Ok (r1, r2), w')
    /\ status r1 = 200%Z
    /\ status r2
       = (if String.eqb "pybot_aaaaaaaa" (nth_bot_id world_two 0)
          then 200 else 404)%Z.
Proof.
  apply (eaten_twice_status "pybot_aaaaaaaa" world_two).
  - repeat constructor; simpl; intuition discriminate.
  - reflexivity.
Defined.

(** ** Reset followed by a poll *)

Lemma sound_ids (d : list (string * PyBot)) :
  Forall sound_entry d ->
  map bd_id (map bot_to_dict (dict_values d)) = dict_keys d.
Proof.
  intros Hf. unfold dict_values, dict_keys. rewrite !map_map.
  apply map_ext_in. intros kb Hin.
  rewrite Forall_forall in Hf. destruct (Hf kb Hin) as [E _]. exact E.
Qed.

Lemma filter_live_sound (d : list (string * PyBot)) :
  Forall sound_entry d ->
  filter (fun b => negb (is_empty (Bot.cells b))) (dict_values d)
  = dict_values d.
Proof.
  unfold dict_values.
  induction 1 as [|kb d (_ & c & Hc & _) _ IH]; [reflexivity|].
  cbn [map filter]. rewrite Hc. cbn [is_empty negb]. rewrite IH. reflexivity.
Qed.

Lemma reset_all_bots_sound (count_arg : option Z) (w : World) :
  unit_random w ->
  exists w1,
    reset_all_bots count_arg w
    = (Ok (BotList (map bot_to_dict (dict_values (bots_data w1))), 200%Z), w1)
    /\ server_inv w1.
Proof.
  intros Hu.
  destruct (spawn_loop_inv
              (Z.to_nat match count_arg with Some n => n | None => 10%Z end)
              (set_bots_data w []))
    as (w1 & Hloop & Hinv).
  { split; [exact Hu|]. split; constructor. }
  exists w1. split; [|exact Hinv].
  unfold reset_all_bots.
  unfold bind at 1. unfold modify at 1. unfold bind at 1. rewrite Hloop.
  unfold bind, get, ret, jsonify.
  destruct Hinv as (_ & _ & Hf). rewrite (filter_live_sound _ Hf).
  reflexivity.
Qed.

(** X16: a poll that follows a reset returns snapshots of exactly the bots
    the reset returned: same identifiers in the same order, pairwise
    distinct, one per registry entry; both answers have status 200. *)
Theorem poll_after_reset (count_arg : option Z) (w : World) :
  unit_random w ->
  exists r1 r2 w',
    reset_then_poll count_arg w = (Ok (r1, r2), w')
    /\ status r1 = 200%Z /\ status r2 = 200%Z
    /\ snapshot_ids (fst r2) = snapshot_ids (fst r1)
    /\ snapshot_ids (fst r1) = dict_keys (bots_data w')
    /\ NoDup (snapshot_ids (fst r1)).
Proof.
  intros Hu.
  destruct (reset_all_bots_sound count_arg w Hu) as (w1 & Heq1 & Hinv1).
  destruct (get_bots_data_inv w1 Hinv1)
    as (bots & w' & Heq2 & Hinv' & Hids & Hkeys & _).
  eexists _, _, w'. unfold reset_then_poll.
  unfold bind at 1. rewrite Heq1. unfold bind at 1. rewrite Heq2.
  unfold ret. split; [reflexivity|].
  cbn [fst snd status snapshot_ids].
  destruct Hinv1 as (_ & Hnd & Hf).
  rewrite (sound_ids _ Hf), Hids, Hkeys.
  repeat split. exact Hnd.
Qed.

Lemma poll_after_reset_witness :
  exists r1 r2 w',
    reset_then_poll (Some 3%Z) world_distinct = (Ok (r1, r2), w')
    /\ status r1 = 200%Z /\ status r2 = 200%Z
    /\ snapshot_ids (fst r2) = snapshot_ids (fst r1)
    /\ snapshot_ids (fst r1) = dict_keys (bots_data w')
    /\ NoDup (snapshot_ids (fst r1)).
Proof.
  apply (poll_after_reset (Some 3%Z) world_distinct).
  intros n. simpl. lra.
Defined.

(** ** Time stamps of a poll *)

Lemma advance_all_clock ct items : forall w,
  Forall sound_entry items ->
  clock_pos (snd (advance_all ct items w)) = (clock_pos w + List.length items)%nat
  /\ clock (snd (advance_all ct items w)) = clock w
  /\ forall i kb,
       nth_error (fst (advance_all ct items w)) i = Some kb ->
       Bot.last_update_time (snd kb) = clock w (clock_pos w + i)%nat.
Proof.
  induction items as [|[k b] rest IH]; intros w Hf.
  - cbn [advance_all fst snd List.length]. rewrite Nat.add_0_r.
    split; [reflexivity|]. split; [reflexivity|].
    intros [|i] kb H; discriminate H.
  - inversion Hf as [|? ? Hs Hrest]; subst.
    destruct (sound_entry_updatable _ Hs) as [Hu Hne]. cbn [snd] in Hu, Hne.
    destruct (update_position_detail (ct - Bot.last_update_time b) b w Hne Hu)
      as (cs' & Heq & _).
    cbn [advance_all]. unfold PyBot in *. rewrite Heq. cbn [fst snd].
    match goal with
    | |- context [advance_all ct rest ?w1] =>
        destruct (IH w1 Hrest) as (Hp & Hc & Ht)
    end.
    cbn [clock clock_pos] in Hp, Hc, Ht.
    split; [rewrite Hp; cbn [List.length]; lia|].
    split; [exact Hc|].
    intros [|i] kb H.
    + cbn [nth_error] in H. injection H as <-.
      cbn [snd Bot.last_update_time]. rewrite Nat.add_0_r. reflexivity.
    + cbn [nth_error] in H. rewrite (Ht i kb H). f_equal. lia.
Qed.

(** X19: a poll of a sound server reads the clock once for the request and
    once more inside each bot's step: afterwards the clock has been read
    [1 + n] times for [n] bots, and the [i]-th bot of the registry is stamped
    with the reading taken during its own step, not with the time of the
    request. *)
Theorem poll_timestamps (w : World) :
  server_inv w ->
  exists r w',
    get_bots_data w = (Ok r, w')
    /\ clock w' = clock w
    /\ clock_pos w'
       = (clock_pos w + 1 + List.length (bots_data w))%nat
    /\ forall i kb,
         nth_error (bots_data w') i = Some kb ->
         Bot.last_update_time (snd kb)
         = clock w (clock_pos w + 1 + i)%nat.
Proof.
  intros (Hu & Hnd & Hf).
  assert (Hupd : Forall updatable (dict_values (bots_data w))).
  { unfold dict_values. apply Forall_map.
    eapply Forall_impl; [|exact Hf]. intros kb H.
    apply sound_entry_updatable. exact H. }
  rewrite (get_bots_data_eq w Hnd Hupd).
  remember (clock w (clock_pos w)) as ct eqn:Ect. clear Ect.
  destruct (advance_all_sound ct (bots_data w) (snd (time_time w)) Hf)
    as (_ & _ & Hfil & _).
  destruct (advance_all_clock ct (bots_data w) (snd (time_time w)) Hf)
    as (Hp & Hc & Ht).
  rewrite Hfil.
  remember (advance_all ct (bots_data w) (snd (time_time w))) as adv eqn:Eadv.
  clear Eadv. cbn [time_time snd clock clock_pos] in Hp, Hc, Ht.
  eexists _, _. split; [reflexivity|].
  unfold set_bots_data. cbn [clock clock_pos bots_data].
  split; [exact Hc|].
  split; [rewrite Hp; lia|].
  intros i kb H. rewrite (Ht i kb H). f_equal. lia.
Qed.

Lemma poll_timestamps_witness :
  exists r w',
    get_bots_data world_one = (Ok r, w')
    /\ clock w' = clock world_one
    /\ clock_pos w'
       = (clock_pos world_one + 1 + List.length (bots_data world_one))%nat
    /\ forall i kb,
         nth_error (bots_data w') i = Some kb ->
         Bot.last_update_time (snd kb)
         = clock world_one (clock_pos world_one + 1 + i)%nat.
Proof.
  apply (poll_timestamps world_one). apply world_one_inv.
Defined.
